(** * Sheet-resistance test bench: the waveform generator and the numeric pipeline

    A shallow embedding of [GUIv0.8/utils/currgen.py] (class [WaveGen]) and of
    the numeric part of [GUIv0.8/app.py] (outlier filter, correction factors,
    reversal averaging, result panel, safety-override flow).

    Number model.  Python [int]s are [Z].  The floats of [currgen.py] only go
    through field arithmetic and comparisons, so they are exact rationals
    ([Q]); the floats of [app.py] go through [log], [sinh], [exp] and [pi], so
    they are reals extended with the two infinities and NaN.  Rounding,
    overflow and underflow of binary64 are not modelled. *)

From Stdlib Require Import String Ascii.
From Stdlib Require Import ZArith QArith Qabs Qround Qpower Reals Qreals Lra
  List Lia Bool.
Import ListNotations.
Open Scope Z_scope.

(** ** Python and numpy primitives used by [currgen.py] *)

Inductive exn : Type :=
| ValueError
| ZeroDivisionError
| TypeError
| KeyError.

(** The result of a call: a value, or a raised exception. *)
Inductive res (A : Type) : Type :=
| Ok (a : A)
| Raise (e : exn).
Arguments Ok {A} a.
Arguments Raise {A} e.

Module Py.

(** [int(x)] on a float: truncation toward zero. *)
Definition int (x : Q) : Z := Z.quot (Qnum x) (Zpos (Qden x)).

(** [10 ** n] for an [int] exponent. *)
Definition pow10 (n : Z) : Q := Qpower (inject_Z 10) n.

(** How a slice bound is brought into [0 .. n] for a sequence of length
    [n]: a negative bound counts from the end. *)
Definition clip (n x : Z) : Z :=
  if x <? 0 then Z.max (x + n) 0 else Z.min x n.

End Py.

Module Np.

(** [numpy.zeros(length)]: negative dimensions are refused. *)
Definition zeros (length : Z) : res (list Q) :=
  if length <? 0 then Raise ValueError
  else Ok (repeat 0%Q (Z.to_nat length)).

(** Writes [v] at the positions [k] of [arr] with [lo <= k < hi], where the
    head of [arr] has position [j]. *)
Fixpoint fill_from (j lo hi : Z) (v : Q) (arr : list Q) : list Q :=
  match arr with
  | [] => []
  | x :: t =>
      (if (lo <=? j) && (j <? hi) then v else x)
        :: fill_from (j + 1) lo hi v t
  end.

(** [arr[a:b] = v] for a scalar [v]. *)
Definition slice_assign (arr : list Q) (a b : Z) (v : Q) : list Q :=
  let n := Z.of_nat (length arr) in
  fill_from 0 (Py.clip n a) (Py.clip n b) v arr.

End Np.

(** ** [class WaveGen] *)

Module WaveGen.

Record t : Type := mk { magnitude : Q; threshold : Q }.

(** [__init__(self, magnitude=0, threshold=1)] *)
Definition init (magnitude : Z) (threshold : Q) : t :=
  mk (Py.pow10 magnitude) threshold.

Definition init_default_threshold (magnitude : Z) : t := init magnitude 1%Q.

(** [_check_safety(self, value)] *)
Definition _check_safety (self : t) (value : Q) : bool :=
  let scaled_value := (value * magnitude self)%Q in
  if Qle_bool (threshold self) (Qabs scaled_value) then false else true.

(** [generate_pulse_wave(self, length, pulse_width, pulse_position,
    high_value)] *)
Definition generate_pulse_wave (self : t) (length pulse_width
    pulse_position : Z) (high_value : Q) : res (list Q) :=
  if length <? pulse_position + pulse_width then Raise ValueError
  else
    let safe := _check_safety self high_value in
    let high_value := (high_value * magnitude self)%Q in
    match Np.zeros length with
    | Raise e => Raise e
    | Ok pulse_wave =>
        Ok (Np.slice_assign pulse_wave pulse_position
              (pulse_position + pulse_width) high_value)
    end.

(** One pass through the body of the [while] loop of
    [generate_square_wave], entered with [i < length]:
    [inl w] when the body leaves through [break], [inr (i', w)] when it
    reaches its end. *)
Definition loop_body (length : Z) (high_value low_value : Q)
    (period high_duration : Z) (i : Z) (square_wave : list Q)
  : list Q + Z * list Q :=
  if i + high_duration <=? length then
    let w1 := Np.slice_assign square_wave i (i + high_duration) high_value in
    let i1 := i + high_duration in
    if i1 + (period - high_duration) <=? length then
      let w2 :=
        Np.slice_assign w1 i1 (i1 + (period - high_duration)) low_value in
      inr (i1 + (period - high_duration), w2)
    else
      inl (Np.slice_assign w1 i1 length low_value)
  else
    inl (Np.slice_assign square_wave i length high_value).

(** The [while i < length] loop; [fuel] bounds the number of times the loop
    condition is evaluated, [None] means the bound was reached. *)
Fixpoint while_loop (fuel : nat) (length : Z) (high_value low_value : Q)
    (period high_duration : Z) (i : Z) (square_wave : list Q)
  : option (list Q) :=
  match fuel with
  | O => None
  | S fuel' =>
      if i <? length then
        match loop_body length high_value low_value period high_duration
                i square_wave with
        | inl w => Some w
        | inr (i', w) =>
            while_loop fuel' length high_value low_value period
              high_duration i' w
        end
      else Some square_wave
  end.

(** [generate_square_wave(self, length, high_value, low_value, period,
    duty_cycle, init_time)] *)
Definition generate_square_wave (fuel : nat) (self : t) (length : Z)
    (high_value low_value : Q) (period : Z) (duty_cycle : Q)
    (init_time : Z) : option (res (list Q)) :=
  let hi_safe := _check_safety self high_value in
  let lo_safe := _check_safety self low_value in
  let high_value := (high_value * magnitude self)%Q in
  let low_value := (low_value * magnitude self)%Q in
  match Np.zeros length with
  | Raise e => Some (Raise e)
  | Ok square_wave =>
      let high_duration := Py.int (inject_Z period * duty_cycle) in
      match while_loop fuel length high_value low_value period
              high_duration init_time square_wave with
      | None => None
      | Some w => Some (Ok w)
      end
  end.

End WaveGen.

(** ** Floats of [app.py] *)

Module Float.
Local Open Scope R_scope.

(** A [numpy.float64] (or Python [float]): a real, an infinity or NaN.
    Zero has no sign here. *)
Inductive float : Type :=
| Fin (r : R)
| PInf
| NInf
| NaN.

Definition Rleb (x y : R) : bool := if Rle_dec x y then true else false.
Definition Rltb (x y : R) : bool := if Rlt_dec x y then true else false.
Definition Reqb (x y : R) : bool := if Req_dec_T x y then true else false.

Definition is_nan (x : float) : bool :=
  match x with NaN => true | _ => false end.

Definition fneg (x : float) : float :=
  match x with
  | Fin r => Fin (- r)
  | PInf => NInf
  | NInf => PInf
  | NaN => NaN
  end.

Definition fabs (x : float) : float :=
  match x with
  | Fin r => Fin (Rabs r)
  | PInf | NInf => PInf
  | NaN => NaN
  end.

Definition fadd (x y : float) : float :=
  match x, y with
  | NaN, _ | _, NaN => NaN
  | Fin a, Fin b => Fin (a + b)
  | PInf, NInf | NInf, PInf => NaN
  | PInf, _ | _, PInf => PInf
  | NInf, _ | _, NInf => NInf
  end.

Definition fsub (x y : float) : float := fadd x (fneg y).

(** An infinity of the sign of [r], NaN when [r] is zero. *)
Definition inf_of_sign (r : R) : float :=
  if Rltb 0 r then PInf else if Rltb r 0 then NInf else NaN.

Definition fmul (x y : float) : float :=
  match x, y with
  | NaN, _ | _, NaN => NaN
  | Fin a, Fin b => Fin (a * b)
  | PInf, Fin b | Fin b, PInf => inf_of_sign b
  | NInf, Fin b | Fin b, NInf => inf_of_sign (- b)
  | PInf, PInf | NInf, NInf => PInf
  | PInf, NInf | NInf, PInf => NInf
  end.

(** [x / y] on [numpy.float64]: a zero divisor raises nothing, the quotient
    is an infinity, or NaN for [0 / 0]. *)
Definition fdiv (x y : float) : float :=
  match x, y with
  | NaN, _ | _, NaN => NaN
  | Fin a, Fin b => if Reqb b 0 then inf_of_sign a else Fin (a / b)
  | Fin _, (PInf | NInf) => Fin 0
  | PInf, Fin b => if Rltb b 0 then NInf else PInf
  | NInf, Fin b => if Rltb b 0 then PInf else NInf
  | (PInf | NInf), (PInf | NInf) => NaN
  end.

(** [x <= y]; every comparison with NaN is [False]. *)
Definition fle (x y : float) : bool :=
  match x, y with
  | NaN, _ | _, NaN => false
  | Fin a, Fin b => Rleb a b
  | NInf, _ | _, PInf => true
  | _, _ => false
  end.

Definition flt (x y : float) : bool :=
  match x, y with
  | NaN, _ | _, NaN => false
  | Fin a, Fin b => Rltb a b
  | PInf, _ | _, NInf => false
  | _, _ => true
  end.

Definition fge (x y : float) : bool := fle y x.

(** [x / y] on Python [float]s: a zero divisor raises. *)
Definition pydiv (x y : R) : res R :=
  if Reqb y 0 then Raise ZeroDivisionError else Ok (x / y).

End Float.

(** A computation that may raise: sequencing stops at the first exception. *)
Definition bind {A B : Type} (c : res A) (k : A -> res B) : res B :=
  match c with
  | Ok a => k a
  | Raise e => Raise e
  end.

Notation "x <- c ;; k" := (bind c (fun x => k))
  (at level 61, c at next level, right associativity).

Fixpoint mapM {A B : Type} (f : A -> res B) (l : list A) : res (list B) :=
  match l with
  | [] => Ok []
  | a :: t => b <- f a ;; bs <- mapM f t ;; Ok (b :: bs)
  end.

(** ** The numpy and pandas functions [app.py] calls *)

Module NpF.
Import Float.
Local Open Scope R_scope.

Definition pi : R := PI.

(** [np.log]: [-inf] at zero and NaN below, with a warning and no
    exception. *)
Definition log (x : float) : float :=
  match x with
  | Fin r => if Rltb 0 r then Fin (ln r)
             else if Reqb r 0 then NInf else NaN
  | PInf => PInf
  | NInf | NaN => NaN
  end.

Definition exp (x : float) : float :=
  match x with
  | Fin r => Fin (Rtrigo_def.exp r)
  | PInf => PInf
  | NInf => Fin 0
  | NaN => NaN
  end.

Definition sinh (x : float) : float :=
  match x with
  | Fin r => Fin (Rtrigo_def.sinh r)
  | PInf => PInf
  | NInf => NInf
  | NaN => NaN
  end.

Definition sum (l : list float) : float := fold_left fadd l (Fin 0).

(** [np.mean]: NaN on an empty array. *)
Definition mean (l : list float) : float :=
  match l with
  | [] => NaN
  | _ => fdiv (sum l) (Fin (INR (length l)))
  end.

Fixpoint insert (x : float) (l : list float) : list float :=
  match l with
  | [] => [x]
  | y :: t => if fle x y then x :: l else y :: insert x t
  end.

Definition sort (l : list float) : list float :=
  fold_right insert [] l.

(** [np.median]: NaN if the array is empty or holds a NaN; else the middle
    of the sorted array, the mean of the two middle cells when the size is
    even. *)
Definition median (l : list float) : float :=
  if existsb is_nan l then NaN
  else
    let s := sort l in
    let n := length s in
    match n with
    | O => NaN
    | _ =>
        if Nat.even n
        then mean [nth (n / 2 - 1)%nat s NaN; nth (n / 2)%nat s NaN]
        else nth (n / 2)%nat s NaN
    end.

(** [l[a:b]] of a list or of a pandas Series with the default index. *)
Definition slice {A : Type} (l : list A) (a b : Z) : list A :=
  let n := Z.of_nat (length l) in
  let a' := Py.clip n a in
  let b' := Py.clip n b in
  firstn (Z.to_nat (b' - a')) (skipn (Z.to_nat a') l).

(** [Series.mean()] of a column of finite values: NaN when it is empty. *)
Definition series_mean (l : list R) : float :=
  match l with
  | [] => NaN
  | _ => Fin (fold_right Rplus 0 l / INR (length l))
  end.

End NpF.

(** ** [app.py]: filters and correction factors *)

Module App.
Import Float.
Local Open Scope R_scope.

(** One row of the frame built from the device's answer; the device sends
    finite numbers. *)
Record row : Type := mk_row {
  Voltage : R; Current : R; Resistance : R;
  Time_ : R; Status : R; Source : R
}.

(** [is_current_in_range(row)] *)
Definition is_current_in_range (r : row) : bool :=
  let source := Rabs (Source r) in
  let current := Rabs (Current r) in
  let lower_bound := source * (7 / 10) in
  let upper_bound := source * (13 / 10) in
  Rleb lower_bound current && Rleb current upper_bound.

(** [remove_outliers_amd(data, threshold=1.6)] *)
Definition remove_outliers_amd (data : list float) (threshold : float)
  : list float :=
  let median := NpF.median data in
  let deviations := map (fun x => fabs (fsub x median)) data in
  let amd := NpF.median deviations in
  filter (fun x => fle (fabs (fsub x median)) (fmul threshold amd)) data.

Definition default_threshold : float := Fin (16 / 10).

(** [thickness_correction(thickness, Probe_spacing)] *)
Definition thickness_correction (thickness Probe_spacing : R) : res float :=
  let t := thickness in
  let s := Probe_spacing in
  let ln_2 := NpF.log (Fin 2) in
  t_over_s <- pydiv t s ;;
  let sinh_t_over_s := NpF.sinh (Fin t_over_s) in
  t_over_2s <- pydiv t (2 * s) ;;
  let sinh_t_over_2s := NpF.sinh (Fin t_over_2s) in
  let ln_ratio := NpF.log (fdiv sinh_t_over_s sinh_t_over_2s) in
  let f_1 := fdiv ln_2 ln_ratio in
  Ok f_1.

(** [circle_lateral_correction(diameter, Probe_spacing)] *)
Definition circle_lateral_correction (diameter Probe_spacing : R)
  : res float :=
  let d := diameter in
  let s := Probe_spacing in
  let ln_2 := NpF.log (Fin 2) in
  d_over_s <- pydiv d s ;;
  let d_over_s_squared := d_over_s ^ 2 in
  let numerator := d_over_s_squared + 3 in
  let denominator := d_over_s_squared - 3 in
  fraction <- pydiv numerator denominator ;;
  let ln_fraction := NpF.log (Fin fraction) in
  let f_2 := fdiv ln_2 (fadd ln_2 ln_fraction) in
  Ok f_2.

(** [compute_am(m, a, d, s)] *)
Definition compute_am (m : Z) (a d s : R) : res float :=
  e1 <- pydiv (-2 * NpF.pi * (a - 2) * IZR m) d ;;
  let term1 := NpF.exp (Fin e1) in
  e2 <- pydiv (-6 * NpF.pi * IZR m) d ;;
  let term2 := fsub (Fin 1) (NpF.exp (Fin e2)) in
  e3 <- pydiv (-2 * NpF.pi * IZR m) d ;;
  let term3 := fsub (Fin 1) (NpF.exp (Fin e3)) in
  e4 <- pydiv (-2 * NpF.pi * IZR m) d ;;
  let term4 := fadd (Fin 1) (NpF.exp (Fin e4)) in
  inv_m <- pydiv 1 (IZR m) ;;
  Ok (fdiv (fmul (fmul (Fin inv_m) term1) (fmul term2 term3)) term4).

(** [range(1, num_terms + 1)] *)
Definition range_from_1 (num_terms : Z) : list Z :=
  map (fun k => Z.of_nat k + 1)%Z (seq 0 (Z.to_nat num_terms)).

(** [square_lateral_correction(d, a, s, num_terms=50)] *)
Definition square_lateral_correction (d a s : R) (num_terms : Z)
  : res float :=
  a <- pydiv a s ;;
  d <- pydiv d s ;;
  terms <- mapM (fun m => compute_am m a d s) (range_from_1 num_terms) ;;
  let sum_am := NpF.sum terms in
  t1 <- pydiv NpF.pi d ;;
  let term1 := Fin t1 in
  e2 <- pydiv (-4 * NpF.pi) d ;;
  let term2 := NpF.log (fsub (Fin 1) (NpF.exp (Fin e2))) in
  e3 <- pydiv (-2 * NpF.pi) d ;;
  let term3 := fneg (NpF.log (fsub (Fin 1) (NpF.exp (Fin e3)))) in
  Ok (fdiv (NpF.log (Fin 2))
           (fadd (fadd (fadd term1 term2) term3) sum_am)).

(** *** Test parameters *)

Inductive sample_shape : Type :=
| Square (square_a square_d : R)
| Circular (circular_diameter : R).

(** The entries of [param_dict] the computations read. *)
Record test_param : Type := mk_param {
  magnitude : Z;
  period : Z;
  duty_cycle : Q;
  initial_zero : Z;
  repeats : Z;
  probe_spacing : R;
  est_thickness : option R;
  shape : sample_shape
}.

(** The call of [generate_square_wave] that the script makes for one
    current level (lines 605, 620 and 242 are the same call). *)
Definition square_wave_for (fuel : nat) (tp : test_param) (value : Q)
  : option (res (list Q)) :=
  let wave := WaveGen.init_default_threshold (magnitude tp) in
  WaveGen.generate_square_wave fuel wave
    (period tp * repeats tp)%Z value (- value)%Q (period tp)
    (duty_cycle tp) (initial_zero tp).

(** *** Reversal averaging *)

(** The corrected voltage of one series:
    [(V[initial_zero:reverse_p].mean() -
      V[reverse_p:initial_zero+period].mean()) / 2]. *)
Definition Volt_corrected (tp : test_param) (voltage : list R) : float :=
  let reverse_p :=
    (initial_zero tp + Py.int (inject_Z (period tp) * duty_cycle tp))%Z in
  fdiv
    (fsub (NpF.series_mean (NpF.slice voltage (initial_zero tp) reverse_p))
          (NpF.series_mean
             (NpF.slice voltage reverse_p (initial_zero tp + period tp)%Z)))
    (Fin 2).

(** [abs(df['Current']).mean()] *)
Definition Avg_curr (current : list R) : float :=
  NpF.series_mean (map Rabs current).

(** [Cal_V/I] of one series. *)
Definition Cal_V_I (tp : test_param) (df : list row) : float :=
  fdiv (Volt_corrected tp (map Voltage df)) (Avg_curr (map Current df)).

(** *** Correction factors and the corrected sheet resistance *)

Definition thicknessComp (tp : test_param) : res float :=
  match est_thickness tp with
  | Some t => thickness_correction (t * (1 / 1000)) (probe_spacing tp)
  | None => Ok (Fin 1)
  end.

Definition lateralComp (tp : test_param) : res float :=
  match shape tp with
  | Square square_a square_d =>
      square_lateral_correction square_d square_a (probe_spacing tp) 50
  | Circular circular_diameter =>
      circle_lateral_correction circular_diameter (probe_spacing tp)
  end.

(** [ratio * np.pi / np.log(2) * thicknessComp * lateralComp], read from
    the left as Python does. *)
Definition Corr_Rsheet_of (ratio tc lc : float) : float :=
  fmul (fmul (fdiv (fmul ratio (Fin NpF.pi)) (NpF.log (Fin 2))) tc) lc.

(** What a finished analysis leaves in [test_param] and in the session. *)
Record outcome : Type := mk_outcome {
  ratios : list float;                (* Cal_V/I: one value per level *)
  filtered : option (list float);     (* Cal_V/I_filtered, auto mode *)
  avg_filtered : option float;        (* Avg_V/I_filtered, auto mode *)
  factors : option (float * float);   (* thicknessComp, lateralComp *)
  Corr_Rsheet : option float;
  auto_result : option bool;
  test_invalid : option bool
}.

Definition count_out_of_range (df : list row) : nat :=
  List.length (filter (fun r => negb (is_current_in_range r)) df).

(** [out_of_range_count / total_rows >= 0.2] on numpy numbers. *)
Definition invalid_flag (out_of_range_count total_rows : nat)
  : option bool :=
  if fge (fdiv (Fin (INR out_of_range_count)) (Fin (INR total_rows)))
         (Fin (2 / 10))
  then Some true else None.

(** Manual mode, lines 639-673, for a frame that was measured. *)
Definition manual_analysis (tp : test_param) (curr_adv : bool)
    (df : list row) (previous_auto_result : option bool) : res outcome :=
  let invalid := invalid_flag (count_out_of_range df) (List.length df) in
  let ratio := Cal_V_I tp df in
  if negb curr_adv then
    tc <- thicknessComp tp ;;
    lc <- lateralComp tp ;;
    Ok (mk_outcome [ratio] None None (Some (tc, lc))
          (Some (Corr_Rsheet_of ratio tc lc)) (Some false) invalid)
  else
    Ok (mk_outcome [ratio] None None None None previous_auto_result
          invalid).


(** *** Result panel *)

Inductive surface : Type := Semiconductor | Metal | Unknown.

Inductive likely : Type :=
| LikelyMetal
| LikelySemiconductor
| LikelyInsulator.

(** The [if]/[elif] chain of lines 745-755. *)
Definition classification (auto_result : option bool) (surf : surface)
    (test_invalid : option bool) (Corr_Rsheet : float) : option likely :=
  match auto_result with
  | Some true =>
      match surf with
      | Unknown =>
          if flt Corr_Rsheet (Fin 5) then Some LikelyMetal
          else if fge Corr_Rsheet (Fin 5)
                  && fle Corr_Rsheet (Fin (10 ^ 6))
          then Some LikelySemiconductor
          else if (match test_invalid with Some _ => true | None => false end)
                  || fge Corr_Rsheet (Fin (10 ^ 6))
          then Some LikelyInsulator
          else None
      | _ => None
      end
  | _ => None
  end.

Inductive widget : Type :=
| Metric_Corr_Rsheet (value : float)
| Markdown_likely (c : likely).

(** First column of the result panel: the metric, then the classification
    line if there is one. *)
Definition result_col1 (auto_result : option bool) (surf : surface)
    (test_invalid : option bool) (Corr_Rsheet : float) : list widget :=
  Metric_Corr_Rsheet Corr_Rsheet
    :: match classification auto_result surf test_invalid Corr_Rsheet with
       | Some c => [Markdown_likely c]
       | None => []
       end.

End App.

(** ** [app.py]: one pass of the script over the start of a test

    Streamlit runs the script from top to bottom at every interaction; the
    session state is what survives from one pass to the next. *)

Module Flow.

(** [str.lower()] on the ASCII letters. *)
Definition lower_ascii (c : ascii) : ascii :=
  let n := nat_of_ascii c in
  if (65 <=? n)%nat && (n <=? 90)%nat then ascii_of_nat (n + 32) else c.

Fixpoint lower (s : string) : string :=
  match s with
  | EmptyString => EmptyString
  | String c t => String (lower_ascii c) (lower t)
  end.

(** [param_dict["curr_value"]]: a number in manual mode, a list in auto
    mode. *)
Inductive curr_value : Type :=
| Scalar (value : Q)
| Levels (values : list Q).

Record params : Type := mk_params {
  p_curr_value : curr_value;
  p_magnitude : Z
}.

Record session : Type := mk_session {
  test_param : option params;    (* [None]: the empty dict of line 389 *)
  test_initiated : bool;
  safe : option bool;
  manual_mode_enable : bool
}.

(** What the user has set on the page when the pass starts. *)
Record widgets : Type := mk_widgets {
  curr_manual : bool;                  (* the "Manual" toggle *)
  force_current : Q;                   (* manual mode: the number input *)
  unit_exponent : Z;                   (* manual mode: unit_mapping[unit] *)
  surf : App.surface;                  (* auto mode: the radio *)
  hir_semi : bool;                     (* auto mode: the toggle *)
  start_test : bool;                   (* the "Start Test" button *)
  safety_override : option string      (* the text input, once shown *)
}.

(** What a pass does that the claims speak about, in order. *)
Inductive event : Type :=
| CheckSafety (value : Q) (result : bool)
| Warning_danger
| GenerateWave (high_value low_value : Q)
| Warning_stopped
| Rerun
| Measure_List
| Uncaught (e : exn).

(** Lines 515-531. *)
Definition auto_curr_value (surf : App.surface) (hir_semi : bool)
  : list Q :=
  match surf with
  | App.Semiconductor =>
      if hir_semi then [1#10; 1#2; 7#10; 1; 3; 5; 7]%Q
      else [5; 10; 30; 50; 70; 90; 100]%Q
  | App.Metal => [150; 200; 250; 300; 350; 400]%Q
  | App.Unknown => [5; 30; 50; 70; 100; 200; 400]%Q
  end.

Definition param_dict (w : widgets) : params :=
  if curr_manual w
  then mk_params (Scalar (force_current w)) (unit_exponent w)
  else mk_params (Levels (auto_curr_value (surf w) (hir_semi w))) (-6).

(** A call of [generate_square_wave]: both safety checks, then the scaling
    and the filling of the array. *)
Definition generate_square_wave_call (wave : WaveGen.t) (value : Q)
  : list event :=
  [CheckSafety value (WaveGen._check_safety wave value);
   CheckSafety (- value)%Q (WaveGen._check_safety wave (- value)%Q);
   GenerateWave value (- value)%Q].

(** Lines 399-405 and 502-505: the mode stamps the session. *)
Definition stamp_mode (s : session) (w : widgets) : session :=
  if curr_manual w
  then mk_session (test_param s) (test_initiated s) None true
  else mk_session (test_param s) (test_initiated s) (Some true) false.

(** Lines 582-591. *)
Definition start_button (s : session) (w : widgets) : session :=
  if start_test w
  then mk_session (Some (param_dict w)) true (safe s)
         (manual_mode_enable s)
  else s.

(** Lines 593-625.  The boolean tells whether the pass goes on to line
    629: [st.rerun()] and an uncaught exception end it. *)
Definition safety_block (s : session) (w : widgets)
  : list event * session * bool :=
  match test_initiated s, safe s with
  | true, None =>
      match test_param s with
      | None => ([Uncaught KeyError], s, false)
      | Some p =>
          match p_curr_value p with
          | Levels _ => ([Uncaught TypeError], s, false)
          | Scalar v =>
              let wave := WaveGen.init_default_threshold (p_magnitude p) in
              let checksafety := WaveGen._check_safety wave v in
              if negb checksafety then
                match safety_override w with
                | Some answer =>
                    if String.eqb (lower answer) "y" then
                      ([CheckSafety v checksafety; Warning_danger]
                         ++ generate_square_wave_call wave v,
                       mk_session (test_param s) (test_initiated s)
                         (Some true) (manual_mode_enable s),
                       true)
                    else
                      ([CheckSafety v checksafety; Warning_danger;
                        Warning_stopped; Rerun],
                       mk_session (test_param s) false (Some false)
                         (manual_mode_enable s),
                       false)
                | None =>
                    ([CheckSafety v checksafety; Warning_danger], s, true)
                end
              else
                (CheckSafety v checksafety
                   :: generate_square_wave_call wave v,
                 mk_session (test_param s) (test_initiated s)
                   (Some true) (manual_mode_enable s),
                 true)
          end
      end
  | _, _ => ([], s, true)
  end.

(** [Auto_Test_Initiation]: one wave and one measurement per level. *)
Definition Auto_Test_Initiation (p : params) : list event :=
  match p_curr_value p with
  | Scalar _ => [Uncaught TypeError]
  | Levels values =>
      let wave := WaveGen.init_default_threshold (p_magnitude p) in
      flat_map
        (fun value => generate_square_wave_call wave value ++ [Measure_List])
        values
  end.

(** Lines 629-680, up to the end of the measurement. *)
Definition measurement_block (s : session) : list event * session :=
  match test_initiated s, safe s with
  | true, Some true =>
      if manual_mode_enable s then
        ([Measure_List],
         mk_session (test_param s) false None (manual_mode_enable s))
      else
        match test_param s with
        | None => ([Uncaught KeyError], s)
        | Some p =>
            match p_curr_value p with
            | Scalar _ | Levels [] => (Auto_Test_Initiation p, s)
            | Levels (_ :: _) =>
                (Auto_Test_Initiation p,
                 mk_session (test_param s) false (safe s)
                   (manual_mode_enable s))
            end
        end
  | _, _ => ([], s)
  end.

(** One pass of the script. *)
Definition pass (s : session) (w : widgets) : list event * session :=
  let s1 := start_button (stamp_mode s w) w in
  let '(ev2, s2, go_on) := safety_block s1 w in
  if go_on then
    let '(ev3, s3) := measurement_block s2 in
    (ev2 ++ ev3, s3)
  else (ev2, s2).

(** The session of a fresh browser tab (lines 388-393 and 575-578). *)
Definition fresh : session := mk_session None false None false.

(** The sessions that passes can produce from a fresh one. *)
Inductive reachable : session -> Prop :=
| reach_fresh : reachable fresh
| reach_pass s w : reachable s -> reachable (snd (pass s w)).

Definition generated (evs : list event) : Prop :=
  exists hi lo, In (GenerateWave hi lo) evs.

Definition measured (evs : list event) : Prop := In Measure_List evs.

Definition abort_reported (evs : list event) : Prop :=
  In Warning_stopped evs.

(** Every wave of [evs] is generated after a safety check of both its
    levels; [seen] holds the values checked so far. *)
Fixpoint guarded (seen : list Q) (evs : list event) : Prop :=
  match evs with
  | [] => True
  | CheckSafety value _ :: rest => guarded (value :: seen) rest
  | GenerateWave high_value low_value :: rest =>
      In high_value seen /\ In low_value seen /\ guarded seen rest
  | _ :: rest => guarded seen rest
  end.

(** The current levels a run asks for. *)
Definition levels_of (p : params) : list Q :=
  match p_curr_value p with
  | Scalar value => [value]
  | Levels values => values
  end.

(** The session the pass holds when it reaches line 593. *)
Definition at_test_start (s : session) (w : widgets) : session :=
  start_button (stamp_mode s w) w.

(** What a list of levels in the session can be: one of the lists of auto
    mode, with the magnitude of auto mode. *)
Definition auto_params (p : params) : Prop :=
  forall values, p_curr_value p = Levels values ->
    p_magnitude p = -6 /\
    exists surf hir_semi, values = auto_curr_value surf hir_semi.

Definition well_formed (s : session) : Prop :=
  forall p, test_param s = Some p -> auto_params p.

End Flow.

(** ** [target_op.py]: what [Measure_List] computes itself, and the frame
    [app.py] builds from it

    The instrument driver is an outside library: a call of it is a function
    of an abstract device state. *)

Module Device.

Section ErrorQueue.
Variable state : Type.

(** [self.driver.utility.error_query()]: the next error record of the
    instrument, [(code, message)], and the device after the query. *)
Variable error_query : state -> (Z * string) * state.

(** The loop that ends [Measure_List], [channel_model_query], [calibrate]
    and the constructor:
    [while True: outVal = error_query(); fetched_error = outVal;
     if outVal[0] == 0: break].  [fuel] bounds the number of queries. *)
Fixpoint drain_errors (fuel : nat) (st : state)
  : option ((Z * string) * state) :=
  match fuel with
  | O => None
  | S fuel' =>
      let '(outVal, st') := error_query st in
      if fst outVal =? 0 then Some (outVal, st')
      else drain_errors fuel' st'
  end.

End ErrorQueue.

(** The first [n] rows of six values of [l]. *)
Fixpoint rows_of {A : Type} (n : nat) (l : list A) : list (list A) :=
  match n with
  | O => []
  | S n' => firstn 6 l :: rows_of n' (skipn 6 l)
  end.

(** [reshape(dResult, (len(dResult) // 6, 6))]: numpy refuses a shape that
    does not hold all the values. *)
Definition reshape_6 (dResult : list R) : res (list (list R)) :=
  let num_sequences := (length dResult / 6)%nat in
  if (num_sequences * 6 =? length dResult)%nat
  then Ok (rows_of num_sequences dResult)
  else Raise ValueError.

(** What [Measure_List] returns: the text of a caught exception, or the
    reshaped data with the last fetched error. *)
Inductive measure_result : Type :=
| Str_e (e : exn)
| Measured (reshaped_result : list (list R)) (fetched_error : Z * string).

(** Lines 189-205 of [Measure_List], from the fetched values on: the errors
    are drained, the data reshaped, and an exception becomes the returned
    text. *)
Definition Measure_List_return {state : Type}
    (error_query : state -> (Z * string) * state) (fuel : nat) (st : state)
    (dResult : list R) : option (measure_result * state) :=
  match drain_errors state error_query fuel st with
  | None => None
  | Some (fetched_error, st') =>
      match reshape_6 dResult with
      | Ok reshaped_result =>
          Some (Measured reshaped_result fetched_error, st')
      | Raise e => Some (Str_e e, st')
      end
  end.

(** One line of the frame with the columns
    [Voltage, Current, Resistance, Time, Status, Source]. *)
Definition row_of_values (values : list R) : res App.row :=
  match values with
  | [v; c; r; t; s; o] => Ok (App.mk_row v c r t s o)
  | _ => Raise ValueError
  end.

(** [pd.DataFrame(result[0], columns=[...])] *)
Definition DataFrame (reshaped_result : list (list R)) : res (list App.row) :=
  mapM row_of_values reshaped_result.

(** [Measured_df] after [Test_Initiation] (lines 202-213): [None] when the
    device call returned a text. *)
Definition Measured_df (result : measure_result)
  : res (option (list App.row)) :=
  match result with
  | Str_e _ => Ok None
  | Measured reshaped_result _ =>
      df <- DataFrame reshaped_result ;; Ok (Some df)
  end.

End Device.

(** ** An ideal sample under the generated wave *)

Module Ideal.
Local Open Scope R_scope.


End Ideal.

(** ** Reference shapes the theorems compare the code with *)

Module Shape.

(** The sample a square wave holds at position [k]: zero before [init], then
    [hi] in the first [hd] places of every cycle of [period] places and
    [lo] in the others. *)
Definition square_sample (hi lo : Q) (period hd init k : Z) : Q :=
  if k <? init then 0%Q
  else if (k - init) mod period <? hd then hi else lo.

(** [w] has [len] cells and holds the square wave on the positions below
    [upto]. *)
Definition shaped_upto (len : Z) (hi lo : Q) (period hd init : Z)
    (upto : Z) (w : list Q) : Prop :=
  Z.of_nat (length w) = len /\
  forall k, 0 <= k < upto -> k < len ->
    nth (Z.to_nat k) w 0%Q = square_sample hi lo period hd init k.

End Shape.

(** ** The median and the median deviation of real numbers *)

Module RealStats.
Local Open Scope R_scope.

Fixpoint insert (x : R) (l : list R) : list R :=
  match l with
  | [] => [x]
  | y :: t => if Float.Rleb x y then x :: l else y :: insert x t
  end.

Definition sort (l : list R) : list R := fold_right insert [] l.

(** The middle of the sorted values, the mean of the two middle ones when
    their number is even. *)
Definition median (l : list R) : R :=
  let s := sort l in
  let n := length s in
  if Nat.even n
  then (nth (n / 2 - 1)%nat s 0 + nth (n / 2)%nat s 0) / 2
  else nth (n / 2)%nat s 0.

(** [mad = median(|data - median(data)|)] *)
Definition mad (l : list R) : R :=
  median (map (fun x => Rabs (x - median l)) l).

End RealStats.

(** ** Concrete runs the theorems are tried on *)

Module Runs.
Local Open Scope R_scope.

(** Two samples per cycle (set in the advanced settings), a wafer of
    100 mm and no thickness given. *)
Definition tp_2 : App.test_param :=
  App.mk_param (-6) 2 (1 # 2) 0 1 (16 / 10) None (App.Circular 100).

(** A series that reads [+1 V] then [-1 V] while no current flows. *)
Definition df_no_current : list App.row :=
  [App.mk_row 1 0 0 0 0 (5 / 100000);
   App.mk_row (-1) 0 0 1 0 (- 5 / 100000)].

(** A series that reads [+0.01 V] then [-0.01 V] at [50 uA]. *)
Definition df_50uA : list App.row :=
  [App.mk_row (1 / 100) (5 / 100000) 200 0 0 (5 / 100000);
   App.mk_row (- 1 / 100) (- 5 / 100000) 200 1 0 (- 5 / 100000)].

Definition sample_1_1_1_1_100 : list R := [1; 1; 1; 1; 100].

(** Manual mode, [2 A] asked for, "Start Test" pressed, and what the
    user typed in the override box. *)
Definition press_start_2A (answer : option string) : Flow.widgets :=
  Flow.mk_widgets true 2%Q 0%Z App.Unknown false true answer.

(** An instrument whose error queue is a list: a query takes the oldest
    record, and an empty queue answers with code [0]. *)
Definition pop_error (queue : list (Z * string))
  : (Z * string) * list (Z * string) :=
  match queue with
  | [] => ((0%Z, "No error"%string), [])
  | e :: rest => (e, rest)
  end.

(** A forcing sequence asked with five initial zeros. *)
Definition tp_init_5 : App.test_param :=
  App.mk_param (-6) 10 (1 # 2) 5 1 (16 / 10) None (App.Circular 100).

End Runs.

(* ================================================================== *)
(** * Properties of [WaveGen] *)

Module WaveGenFacts.
Import WaveGen Shape.

(** *** Slice assignment *)

Lemma fill_from_length j lo hi v arr :
  length (Np.fill_from j lo hi v arr) = length arr.
Proof.
  revert j; induction arr as [|x t IH]; intros j; simpl; [reflexivity|].
  now rewrite IH.
Qed.

Lemma slice_assign_length arr a b v :
  length (Np.slice_assign arr a b v) = length arr.
Proof. apply fill_from_length. Qed.

Lemma nth_fill_from arr : forall j lo hi v n d,
  (n < length arr)%nat ->
  nth n (Np.fill_from j lo hi v arr) d =
  if (lo <=? j + Z.of_nat n) && (j + Z.of_nat n <? hi) then v
  else nth n arr d.
Proof.
  induction arr as [|x t IH]; intros j lo hi v n d Hn; simpl in Hn; [lia|].
  destruct n as [|n]; simpl Np.fill_from; cbn [nth].
  - now rewrite Z.add_0_r.
  - rewrite IH by lia.
    replace (j + 1 + Z.of_nat n) with (j + Z.of_nat (S n)) by lia.
    reflexivity.
Qed.

(** With bounds that are not negative, [arr[a:b] = v] overwrites exactly
    the positions [a <= k < b] that exist. *)
Lemma nth_slice_assign arr a b v k d :
  0 <= a -> 0 <= b -> 0 <= k < Z.of_nat (length arr) ->
  nth (Z.to_nat k) (Np.slice_assign arr a b v) d =
  if (a <=? k) && (k <? b) then v else nth (Z.to_nat k) arr d.
Proof.
  intros Ha Hb Hk. unfold Np.slice_assign.
  rewrite nth_fill_from by lia.
  rewrite Z2Nat.id by lia. rewrite Z.add_0_l.
  unfold Py.clip.
  destruct (a <? 0) eqn:Ea; [lia|].
  destruct (b <? 0) eqn:Eb; [lia|].
  replace (Z.min a (Z.of_nat (length arr)) <=? k) with (a <=? k) by lia.
  replace (k <? Z.min b (Z.of_nat (length arr))) with (k <? b) by lia.
  reflexivity.
Qed.

(** *** The loop keeps the length of the array *)

Lemma loop_body_break_length len hi lo period hd i w w' :
  loop_body len hi lo period hd i w = inl w' -> length w' = length w.
Proof.
  unfold loop_body.
  destruct (i + hd <=? len); [destruct (i + hd + (period - hd) <=? len)|];
    intros H; inversion H; subst;
    now rewrite ?slice_assign_length.
Qed.

Lemma loop_body_continue len hi lo period hd i w i' w' :
  loop_body len hi lo period hd i w = inr (i', w') ->
  i' = i + period /\ length w' = length w.
Proof.
  unfold loop_body.
  destruct (i + hd <=? len); [destruct (i + hd + (period - hd) <=? len)|];
    intros H; inversion H; subst.
  split; [lia|]. now rewrite !slice_assign_length.
Qed.

Lemma while_loop_length fuel : forall len hi lo period hd i w w',
  while_loop fuel len hi lo period hd i w = Some w' ->
  length w' = length w.
Proof.
  induction fuel as [|fuel IH]; intros len hi lo period hd i w w' H;
    simpl in H; [discriminate|].
  destruct (i <? len).
  - destruct (loop_body len hi lo period hd i w) as [wb|[i1 w1]] eqn:E.
    + inversion H; subst. eapply loop_body_break_length; eauto.
    + apply IH in H. apply loop_body_continue in E. destruct E as [_ E].
      congruence.
  - now inversion H.
Qed.

Lemma zeros_length len w :
  Np.zeros len = Ok w -> Z.of_nat (length w) = len.
Proof.
  unfold Np.zeros. destruct (len <? 0) eqn:E; [discriminate|].
  intros H; inversion H; subst. rewrite repeat_length. lia.
Qed.

(** Every array that [generate_square_wave] returns has [length] cells. *)
Lemma generate_square_wave_length fuel self len hv lv period dc init w :
  generate_square_wave fuel self len hv lv period dc init = Some (Ok w) ->
  Z.of_nat (length w) = len.
Proof.
  unfold generate_square_wave.
  destruct (Np.zeros len) as [z|e] eqn:Ez; [|discriminate].
  destruct (while_loop _ _ _ _ _ _ _ _) as [w1|] eqn:El; [|discriminate].
  intros H; inversion H; subst.
  apply while_loop_length in El. apply zeros_length in Ez. lia.
Qed.

(** *** Fuel *)

(** More fuel never changes a result that was reached. *)
Lemma while_loop_fuel_mono fuel : forall fuel' len hi lo period hd i w w',
  (fuel <= fuel')%nat ->
  while_loop fuel len hi lo period hd i w = Some w' ->
  while_loop fuel' len hi lo period hd i w = Some w'.
Proof.
  induction fuel as [|fuel IH]; intros fuel' len hi lo period hd i w w' Hle H;
    simpl in H; [discriminate|].
  destruct fuel' as [|fuel']; [lia|]. simpl.
  destruct (i <? len); [|exact H].
  destruct (loop_body len hi lo period hd i w) as [wb|[i1 w1]]; [exact H|].
  apply IH; [lia|exact H].
Qed.

(** With [period >= 1] the distance [length - i] shrinks by [period] at
    every full pass, so [length - i] passes are enough. *)
Lemma while_loop_terminates len hi lo period hd :
  1 <= period ->
  forall n i w, len - i <= Z.of_nat n ->
    exists w', while_loop (S n) len hi lo period hd i w = Some w'.
Proof.
  intros Hp. induction n as [|n IH]; intros i w Hn.
  - simpl. destruct (i <? len) eqn:E; [lia|]. eauto.
  - cbn [while_loop]. destruct (i <? len) eqn:E; [|eauto].
    destruct (loop_body len hi lo period hd i w) as [wb|[i1 w1]] eqn:Eb;
      [eauto|].
    apply loop_body_continue in Eb. destruct Eb as [-> _].
    apply IH. lia.
Qed.

(** With [period = 0] the high duration is [0] too and a pass moves
    nothing: the loop is entered again in the same state. *)
Lemma while_loop_period_0 len hi lo fuel : forall i w,
  i < len -> while_loop fuel len hi lo 0 0 i w = None.
Proof.
  induction fuel as [|fuel IH]; intros i w Hi; [reflexivity|].
  cbn [while_loop]. destruct (i <? len) eqn:E; [|lia].
  unfold loop_body.
  destruct (i + 0 <=? len) eqn:E1; [|lia].
  destruct (i + 0 + (0 - 0) <=? len) eqn:E2; [|lia].
  apply IH. lia.
Qed.

Lemma int_period_0 dc : Py.int (inject_Z 0 * dc) = 0.
Proof. reflexivity. Qed.

(** *** [int] and [floor] *)

Lemma int_floor q : (0 <= q)%Q -> Py.int q = Qfloor q.
Proof.
  destruct q as [n d]. unfold Qle, Py.int, Qfloor. simpl. intros H.
  apply Z.quot_div_nonneg; lia.
Qed.

Lemma high_duration_bounds period dc :
  0 <= period -> (0 <= dc)%Q -> (dc <= 1)%Q ->
  0 <= Qfloor (inject_Z period * dc) <= period.
Proof.
  intros Hp H0 H1.
  assert (Hq : (0 <= inject_Z period)%Q)
    by (unfold Qle; simpl; lia).
  split.
  - change 0 with (Qfloor (inject_Z 0)).
    apply Qfloor_resp_le. change (inject_Z 0) with 0%Q.
    now apply Qmult_le_0_compat.
  - rewrite <- (Qfloor_Z period) at 2.
    apply Qfloor_resp_le.
    rewrite <- (Qmult_1_r (inject_Z period)) at 2.
    rewrite !(Qmult_comm (inject_Z period)).
    now apply Qmult_le_compat_r.
Qed.

(** *** The shape of the wave *)

Lemma phase_in_cycle period init i k :
  0 < period -> (i - init) mod period = 0 -> i <= k < i + period ->
  (k - init) mod period = k - i.
Proof.
  intros Hp Hi Hk.
  apply Z.mod_divide in Hi; [|lia]. destruct Hi as [q Hq].
  replace (k - init) with (k - i + q * period) by lia.
  rewrite Z_mod_plus_full. apply Z.mod_small. lia.
Qed.

Section LoopShape.
Variables (len : Z) (hi lo : Q) (period hd init : Z).
Hypothesis Hperiod : 0 < period.
Hypothesis Hhd : 0 <= hd <= period.
Hypothesis Hinit : 0 <= init.

Lemma while_loop_shape :
  forall n i w,
    len - i <= Z.of_nat n -> init <= i -> (i - init) mod period = 0 ->
    shaped_upto len hi lo period hd init i w ->
    exists w', while_loop (S n) len hi lo period hd i w = Some w' /\
               shaped_upto len hi lo period hd init len w'.
Proof.
  induction n as [|n IH]; intros i w Hn Hi Hph [Hlen Hw].
  - simpl. destruct (i <? len) eqn:E; [lia|].
    exists w. split; [reflexivity|]. split; [exact Hlen|].
    intros k Hk _. apply Hw; lia.
  - cbn [while_loop]. destruct (i <? len) eqn:E.
    2:{ exists w. split; [reflexivity|]. split; [exact Hlen|].
        intros k Hk _. apply Hw; lia. }
    assert (Hsample : forall k, i <= k < i + period ->
              square_sample hi lo period hd init k =
              if k <? i + hd then hi else lo).
    { intros k Hk. unfold square_sample.
      destruct (k <? init) eqn:Ek; [lia|].
      rewrite (phase_in_cycle period init i k) by (try assumption; lia).
      destruct (k - i <? hd) eqn:E1, (k <? i + hd) eqn:E2;
        try reflexivity; lia. }
    unfold loop_body.
    destruct (i + hd <=? len) eqn:E1.
    + destruct (i + hd + (period - hd) <=? len) eqn:E2.
      * apply IH; try lia.
        { replace (i + hd + (period - hd) - init)
            with (i - init + 1 * period) by lia.
          now rewrite Z_mod_plus_full. }
        split; [now rewrite !slice_assign_length|].
        intros k Hk Hkl.
        rewrite !nth_slice_assign
          by (rewrite ?slice_assign_length; lia).
        destruct ((i + hd <=? k) && (k <? i + hd + (period - hd))) eqn:Ea.
        { rewrite Hsample by lia.
          destruct (k <? i + hd) eqn:Eb; [lia|reflexivity]. }
        destruct ((i <=? k) && (k <? i + hd)) eqn:Eb.
        { rewrite Hsample by lia.
          destruct (k <? i + hd) eqn:Ec; [reflexivity|lia]. }
        apply Hw; lia.
      * eexists. split; [reflexivity|].
        split; [now rewrite !slice_assign_length|].
        intros k Hk Hkl.
        rewrite !nth_slice_assign
          by (rewrite ?slice_assign_length; lia).
        destruct ((i + hd <=? k) && (k <? len)) eqn:Ea.
        { rewrite Hsample by lia.
          destruct (k <? i + hd) eqn:Eb; [lia|reflexivity]. }
        destruct ((i <=? k) && (k <? i + hd)) eqn:Eb.
        { rewrite Hsample by lia.
          destruct (k <? i + hd) eqn:Ec; [reflexivity|lia]. }
        apply Hw; lia.
    + eexists. split; [reflexivity|].
      split; [now rewrite !slice_assign_length|].
      intros k Hk Hkl.
      rewrite !nth_slice_assign by lia.
      destruct ((i <=? k) && (k <? len)) eqn:Ea.
      { rewrite Hsample by lia.
        destruct (k <? i + hd) eqn:Ec; [reflexivity|lia]. }
      apply Hw; lia.
Qed.

Lemma zeros_good w :
  Np.zeros len = Ok w -> shaped_upto len hi lo period hd init init w.
Proof.
  intros Hz. split; [now apply zeros_length|].
  intros k Hk _. unfold square_sample.
  destruct (k <? init) eqn:E; [|lia].
  unfold Np.zeros in Hz. destruct (len <? 0); [discriminate|].
  inversion Hz; subst. apply nth_repeat.
Qed.

Lemma while_loop_from_zeros w :
  Np.zeros len = Ok w ->
  exists w',
    while_loop (S (Z.to_nat (len - init))) len hi lo period hd init w
      = Some w' /\
    Z.of_nat (length w') = len /\
    forall k, 0 <= k < len ->
      nth (Z.to_nat k) w' 0%Q = square_sample hi lo period hd init k.
Proof.
  intros Hz.
  destruct (while_loop_shape (Z.to_nat (len - init)) init w)
    as [w' [Hrun [Hlen Hw]]].
  - lia.
  - lia.
  - now rewrite Z.sub_diag.
  - now apply zeros_good.
  - exists w'. repeat split; try assumption.
    intros k Hk. apply Hw; lia.
Qed.
End LoopShape.

(** One cycle of 100 samples at [50 uA]: 50 high samples, then 50 low
    ones. *)
Example square_wave_50uA :
  generate_square_wave 2 (init (-6) 1) 100 50 (-50) 100 (1 # 2) 0
  = Some (Ok (repeat (50 * Py.pow10 (-6))%Q 50
              ++ repeat (-50 * Py.pow10 (-6))%Q 50)).
Proof. vm_compute. reflexivity. Qed.

(** A cycle cut by the end of the array. *)
Example square_wave_cut :
  generate_square_wave 3 (init 0 1) 7 3 (-3) 4 (1 # 2) 1
  = Some (Ok [0; 3; 3; -3; -3; 3; 3])%Q.
Proof. vm_compute. reflexivity. Qed.

(** Five initial zeros in a sequence of ten. *)
Example square_wave_init_5 :
  App.square_wave_for 2 Runs.tp_init_5 1
  = Some (Ok (repeat 0%Q 5 ++ repeat (1 * Py.pow10 (-6))%Q 5)).
Proof. vm_compute. reflexivity. Qed.

(** The call on well-formed arguments: it returns, and what it returns. *)
Lemma generate_square_wave_spec (self : t) (len : Z) (high_value low_value : Q)
    (period : Z) (duty_cycle : Q) (init_time : Z) :
  0 <= len -> 0 < period ->
  (0 <= duty_cycle)%Q -> (duty_cycle <= 1)%Q -> 0 <= init_time ->
  exists fuel w,
    generate_square_wave fuel self len high_value low_value period
      duty_cycle init_time = Some (Ok w) /\
    Z.of_nat (length w) = len /\
    forall k, 0 <= k < len ->
      nth (Z.to_nat k) w 0%Q =
      if k <? init_time then 0%Q
      else if (k - init_time) mod period
              <? Qfloor (inject_Z period * duty_cycle)
           then (high_value * magnitude self)%Q
           else (low_value * magnitude self)%Q.
Proof.
  intros Hlen Hp Hd0 Hd1 Hinit.
  assert (Hq : (0 <= inject_Z period * duty_cycle)%Q).
  { apply Qmult_le_0_compat; [unfold Qle; simpl; lia | assumption]. }
  pose proof (high_duration_bounds period duty_cycle
                ltac:(lia) Hd0 Hd1) as Hhd.
  unfold generate_square_wave.
  destruct (Np.zeros len) as [z|e] eqn:Ez.
  2:{ unfold Np.zeros in Ez. destruct (len <? 0) eqn:E; [lia|discriminate]. }
  rewrite (int_floor _ Hq).
  destruct (while_loop_from_zeros len (high_value * magnitude self)%Q
              (low_value * magnitude self)%Q period
              (Qfloor (inject_Z period * duty_cycle)) init_time
              Hp Hhd Hinit z Ez) as [w' [Hrun [Hl Hw]]].
  exists (S (Z.to_nat (len - init_time))), w'.
  rewrite Hrun. repeat split; [exact Hl|].
  intros k Hk. rewrite (Hw k Hk). reflexivity.
Qed.

End WaveGenFacts.

(* ================================================================== *)
(** * The claims about [WaveGen] *)

Module WaveGenClaims.
Import WaveGen WaveGenFacts.




(** C10.  With [period >= 1] the call returns for every other argument,
    each full pass of the loop moving the index by [period]; with
    [period = 0] and [init_time < length] the loop never ends, whatever
    array it starts from, and neither does the call when [length >= 0]
    lets it reach the loop. *)
Theorem square_wave_termination :
  (forall len hv lv period hd i w i' w',
      loop_body len hv lv period hd i w = inr (i', w') ->
      i' = i + period) /\
  (forall self len hv lv period dc init_time,
      1 <= period ->
      exists fuel r,
        generate_square_wave fuel self len hv lv period dc init_time
          = Some r) /\
  (forall len hv lv dc init_time w fuel,
      init_time < len ->
      while_loop fuel len hv lv 0 (Py.int (inject_Z 0 * dc)) init_time w
        = None) /\
  (forall self len hv lv dc init_time fuel,
      0 <= len -> init_time < len ->
      generate_square_wave fuel self len hv lv 0 dc init_time = None).
Proof.
  split; [|split; [|split]].
  - intros len hv lv period hd i w i' w' H.
    now apply loop_body_continue in H.
  - intros self len hv lv period dc init_time Hp.
    unfold generate_square_wave.
    destruct (Np.zeros len) as [z|e]; [|now exists O, (Raise e)].
    destruct (while_loop_terminates len (hv * magnitude self)%Q
                (lv * magnitude self)%Q period
                (Py.int (inject_Z period * dc)) Hp
                (Z.to_nat (len - init_time)) init_time z ltac:(lia))
      as [w' Hw'].
    exists (S (Z.to_nat (len - init_time))), (Ok w'). now rewrite Hw'.
  - intros len hv lv dc init_time w fuel Hi.
    rewrite int_period_0. now apply while_loop_period_0.
  - intros self len hv lv dc init_time fuel Hlen Hi.
    unfold generate_square_wave.
    destruct (Np.zeros len) as [z|e] eqn:Ez.
    + rewrite int_period_0, while_loop_period_0 by assumption. reflexivity.
    + unfold Np.zeros in Ez. destruct (len <? 0) eqn:E; [lia|discriminate].
Qed.

(** C1 as stated fails: with [period = 10], [repeats = 1] and
    [initial_zero = 5] the sequence has 10 values, not 15. *)
Lemma forcing_length_not_extended :
  ~ (forall (tp : App.test_param) (value : Q),
        0 < App.period tp ->
        (0 <= App.duty_cycle tp)%Q -> (App.duty_cycle tp <= 1)%Q ->
        1 <= App.repeats tp -> 0 <= App.initial_zero tp ->
        exists fuel w,
          App.square_wave_for fuel tp value = Some (Ok w) /\
          Z.of_nat (length w)
          = App.period tp * App.repeats tp + App.initial_zero tp).
Proof.
  intros H.
  destruct (H Runs.tp_init_5 50%Q)
    as [fuel [w [Hrun Hlen]]]; simpl;
    try lia; try (unfold Qle; simpl; lia).
  apply generate_square_wave_length in Hrun. simpl in Hrun, Hlen. lia.
Qed.

(** C1, amended.  For [period > 0], [0 <= duty_cycle <= 1], [repeats >= 1]
    and [initial_zero >= 0] the forcing sequence of a test run has
    [period * repeats] values: the initial zeros are part of them. *)
Theorem forcing_length (tp : App.test_param) (value : Q) :
  0 < App.period tp ->
  (0 <= App.duty_cycle tp)%Q -> (App.duty_cycle tp <= 1)%Q ->
  1 <= App.repeats tp -> 0 <= App.initial_zero tp ->
  exists fuel w,
    App.square_wave_for fuel tp value = Some (Ok w) /\
    Z.of_nat (length w) = App.period tp * App.repeats tp /\
    forall k, 0 <= k < App.initial_zero tp ->
              k < App.period tp * App.repeats tp ->
              nth (Z.to_nat k) w 0%Q = 0%Q.
Proof.
  intros Hp Hd0 Hd1 Hr Hz. unfold App.square_wave_for.
  destruct (generate_square_wave_spec
              (init_default_threshold (App.magnitude tp))
              (App.period tp * App.repeats tp) value (- value)%Q
              (App.period tp) (App.duty_cycle tp) (App.initial_zero tp))
    as [fuel [w [Hrun [Hlen Hw]]]]; try assumption; try nia.
  exists fuel, w. repeat split; try assumption.
  intros k Hk Hk'. rewrite Hw by lia.
  destruct (k <? App.initial_zero tp) eqn:E; [reflexivity|lia].
Qed.

Lemma forcing_length_witness :
  exists fuel w,
    App.square_wave_for fuel Runs.tp_init_5 50 = Some (Ok w) /\
    Z.of_nat (length w)
    = App.period Runs.tp_init_5 * App.repeats Runs.tp_init_5 /\
    forall k, 0 <= k < App.initial_zero Runs.tp_init_5 ->
              k < App.period Runs.tp_init_5 * App.repeats Runs.tp_init_5 ->
              nth (Z.to_nat k) w 0%Q = 0%Q.
Proof.
  apply (forcing_length Runs.tp_init_5 50); simpl.
  - lia.
  - unfold Qle; simpl; lia.
  - unfold Qle; simpl; lia.
  - lia.
  - lia.
Defined.

End WaveGenClaims.

(* ================================================================== *)
(** * Properties of the float model *)

Module FloatFacts.
Import Float.
Local Open Scope R_scope.

Lemma Rleb_true x y : x <= y -> Rleb x y = true.
Proof. intros H. unfold Rleb. destruct (Rle_dec x y); [reflexivity|lra]. Qed.

Lemma Rleb_false x y : y < x -> Rleb x y = false.
Proof. intros H. unfold Rleb. destruct (Rle_dec x y); [lra|reflexivity]. Qed.

Lemma Rltb_true x y : x < y -> Rltb x y = true.
Proof. intros H. unfold Rltb. destruct (Rlt_dec x y); [reflexivity|lra]. Qed.

Lemma Rltb_false x y : y <= x -> Rltb x y = false.
Proof. intros H. unfold Rltb. destruct (Rlt_dec x y); [lra|reflexivity]. Qed.

Lemma Reqb_true x y : x = y -> Reqb x y = true.
Proof.
  intros H. unfold Reqb. destruct (Req_dec_T x y); [reflexivity|contradiction].
Qed.

Lemma Reqb_false x y : x <> y -> Reqb x y = false.
Proof.
  intros H. unfold Reqb. destruct (Req_dec_T x y); [contradiction|reflexivity].
Qed.

Lemma Rleb_iff x y : Rleb x y = true <-> x <= y.
Proof.
  unfold Rleb. destruct (Rle_dec x y); split; intros; try reflexivity;
    try assumption; try discriminate; contradiction.
Qed.

Lemma Rltb_iff x y : Rltb x y = true <-> x < y.
Proof.
  unfold Rltb. destruct (Rlt_dec x y); split; intros; try reflexivity;
    try assumption; try discriminate; contradiction.
Qed.

Lemma pydiv_ok x y : y <> 0 -> pydiv x y = Ok (x / y).
Proof. intros H. unfold pydiv. now rewrite Reqb_false. Qed.

Lemma pydiv_zero x : pydiv x 0 = Raise ZeroDivisionError.
Proof. unfold pydiv. now rewrite Reqb_true. Qed.

Lemma fdiv_fin a b : b <> 0 -> fdiv (Fin a) (Fin b) = Fin (a / b).
Proof. intros H. unfold fdiv. now rewrite Reqb_false. Qed.

Lemma log_pos r : 0 < r -> NpF.log (Fin r) = Fin (ln r).
Proof. intros H. unfold NpF.log. now rewrite Rltb_true. Qed.

Lemma log_neg r : r < 0 -> NpF.log (Fin r) = NaN.
Proof.
  intros H. unfold NpF.log.
  rewrite Rltb_false by lra. rewrite Reqb_false by lra. reflexivity.
Qed.

Lemma ln_2_pos : 0 < ln 2.
Proof. rewrite <- ln_1. apply ln_increasing; lra. Qed.

Lemma log_2 : NpF.log (Fin 2) = Fin (ln 2).
Proof. apply log_pos. lra. Qed.

End FloatFacts.

(* ================================================================== *)
(** * Properties of the correction factors *)

Module CorrectionFacts.
Import Float FloatFacts App.
Local Open Scope R_scope.

(** What [circle_lateral_correction] computes, by the sign of
    [(d/s)^2 - 3]. *)
Lemma circle_lateral_correction_cases (d s : R) :
  0 < s ->
  ((d / s) ^ 2 > 3 ->
     let x := (d / s) ^ 2 in
     let f := ln 2 / (ln 2 + ln ((x + 3) / (x - 3))) in
     circle_lateral_correction d s = Ok (Fin f) /\ 0 < f) /\
  ((d / s) ^ 2 < 3 -> circle_lateral_correction d s = Ok NaN) /\
  ((d / s) ^ 2 = 3 ->
     circle_lateral_correction d s = Raise ZeroDivisionError).
Proof.
  intros Hs. unfold circle_lateral_correction.
  rewrite pydiv_ok by lra. cbn [bind].
  set (x := (d / s) ^ 2). pose proof ln_2_pos as H2.
  split; [|split]; intros Hx.
  - rewrite pydiv_ok by lra. cbn [bind].
    assert (Hfrac : 1 < (x + 3) / (x - 3)).
    { apply Rmult_lt_reg_r with (x - 3); [lra|].
      unfold Rdiv. rewrite Rmult_assoc, Rinv_l by lra. lra. }
    assert (Hln : 0 < ln ((x + 3) / (x - 3))).
    { rewrite <- ln_1. apply ln_increasing; lra. }
    rewrite log_2, log_pos by lra. cbn [fadd].
    rewrite fdiv_fin by lra.
    split; [reflexivity|].
    apply Rdiv_lt_0_compat; lra.
  - rewrite pydiv_ok by lra. cbn [bind].
    assert (Hfrac : (x + 3) / (x - 3) < 0).
    { assert (0 <= x) by (unfold x; apply pow2_ge_0).
      apply Ropp_lt_cancel. rewrite Ropp_0.
      replace (- ((x + 3) / (x - 3))) with ((x + 3) / (3 - x))
        by (field; lra).
      apply Rdiv_lt_0_compat; lra. }
    rewrite log_2, (log_neg _ Hfrac). reflexivity.
  - replace (x - 3) with 0 by lra. rewrite pydiv_zero. reflexivity.
Qed.

(** The wafer of 100 mm under the probe of 1.6 mm spacing. *)
Lemma circle_100_16 :
  exists f, circle_lateral_correction 100 (16 / 10) = Ok (Fin f) /\ 0 < f.
Proof.
  destruct (circle_lateral_correction_cases 100 (16 / 10) ltac:(lra))
    as [H _].
  eexists. apply H. lra.
Qed.


End CorrectionFacts.

(* ================================================================== *)
(** * The claims about the correction factors and the classification *)

Module CorrectionClaims.
Import Float FloatFacts App CorrectionFacts.
Local Open Scope R_scope.




(** C6 as stated fails: an overall-invalid result with
    [correctedR = 3.2] is classified metal-like, not insulator-like. *)
Lemma invalid_low_resistance_is_metal :
  ~ (forall (r : R) (test_invalid : option bool),
        (10 ^ 6 < r \/ test_invalid <> None) ->
        classification (Some true) Unknown test_invalid (Fin r)
        = Some LikelyInsulator).
Proof.
  intros H.
  assert (Hinv : Some true <> @None bool) by discriminate.
  pose proof (H (32 / 10) (Some true) (or_intror Hinv)) as H1.
  unfold classification in H1. cbn [flt] in H1.
  rewrite Rltb_true in H1 by lra. discriminate H1.
Qed.

(** C6, amended.  Where a classification is produced (auto result,
    surface "Unknown"): [correctedR < 5] gives metal-like,
    [5 <= correctedR <= 1e6] semiconductor-like and [correctedR > 1e6]
    (infinite included) insulator-like, whatever the validity flag; the
    flag decides only when none of the three ranges applies (a NaN value),
    which it turns into insulator-like; the metric with the corrected value
    is shown before the classification and whatever it is. *)
Theorem classification_ranges (test_invalid : option bool) :
  (forall r, r < 5 ->
     classification (Some true) Unknown test_invalid (Fin r)
     = Some LikelyMetal) /\
  (forall r, 5 <= r <= 10 ^ 6 ->
     classification (Some true) Unknown test_invalid (Fin r)
     = Some LikelySemiconductor) /\
  (forall r, 10 ^ 6 < r ->
     classification (Some true) Unknown test_invalid (Fin r)
     = Some LikelyInsulator) /\
  classification (Some true) Unknown test_invalid PInf
    = Some LikelyInsulator /\
  classification (Some true) Unknown test_invalid NaN
    = match test_invalid with
      | Some _ => Some LikelyInsulator
      | None => None
      end /\
  (forall x, exists rest,
     result_col1 (Some true) Unknown test_invalid x
     = Metric_Corr_Rsheet x :: rest).
Proof.
  unfold classification, result_col1, fge.
  repeat split.
  - intros r H. cbn [flt]. now rewrite Rltb_true.
  - intros r H. cbn [flt fle].
    rewrite Rltb_false by lra. rewrite !Rleb_true by lra. reflexivity.
  - intros r H. cbn [flt fle].
    rewrite Rltb_false by lra. rewrite (Rleb_true 5 r) by lra.
    rewrite (Rleb_false r) by lra. rewrite (Rleb_true _ r) by lra.
    cbn [andb]. now rewrite orb_true_r.
  - cbn [flt fle andb]. now rewrite orb_true_r.
  - cbn [flt fle andb]. destruct test_invalid; reflexivity.
  - intros x. eexists. reflexivity.
Qed.

End CorrectionClaims.

(* ================================================================== *)
(** * The outlier filter *)

Module FilterFacts.
Import Float FloatFacts App Runs.
Local Open Scope R_scope.

Lemma insert_fin x l :
  NpF.insert (Fin x) (map Fin l) = map Fin (RealStats.insert x l).
Proof.
  induction l as [|y t IH]; [reflexivity|].
  cbn [map NpF.insert RealStats.insert fle].
  destruct (Rleb x y); [reflexivity|].
  cbn [map]. now rewrite IH.
Qed.

Lemma sort_fin l : NpF.sort (map Fin l) = map Fin (RealStats.sort l).
Proof.
  induction l as [|x t IH]; [reflexivity|].
  unfold NpF.sort, RealStats.sort in *. cbn [map fold_right].
  rewrite IH. apply insert_fin.
Qed.

Lemma insert_length x l :
  length (RealStats.insert x l) = S (length l).
Proof.
  induction l as [|y t IH]; [reflexivity|].
  cbn [RealStats.insert]. destruct (Rleb x y); cbn [length]; congruence.
Qed.

Lemma sort_length l : length (RealStats.sort l) = length l.
Proof.
  induction l as [|x t IH]; [reflexivity|].
  unfold RealStats.sort in *. cbn [fold_right length].
  now rewrite insert_length, IH.
Qed.

Lemma no_nan_fin l : existsb is_nan (map Fin l) = false.
Proof. induction l as [|x t IH]; [reflexivity|exact IH]. Qed.

Lemma nth_fin (l : list R) k :
  (k < length l)%nat -> nth k (map Fin l) NaN = Fin (nth k l 0).
Proof.
  intros H. rewrite (nth_indep _ NaN (Fin 0)) by now rewrite length_map.
  apply (map_nth Fin).
Qed.

Lemma mean_pair a b : NpF.mean [Fin a; Fin b] = Fin ((a + b) / 2).
Proof.
  unfold NpF.mean, NpF.sum. cbn [fold_left fadd length INR].
  rewrite fdiv_fin by lra. f_equal. field.
Qed.

(** On finite values [np.median] is the median of the reals. *)
Lemma median_fin l :
  l <> [] -> NpF.median (map Fin l) = Fin (RealStats.median l).
Proof.
  intros Hl. unfold NpF.median, RealStats.median.
  rewrite no_nan_fin, sort_fin, length_map.
  pose proof (sort_length l) as Hn.
  set (s := RealStats.sort l) in *.
  destruct (length s) as [|n] eqn:En.
  { destruct l; [contradiction|discriminate]. }
  destruct (Nat.even (S n)) eqn:Ev.
  - assert (Hlt : (S n / 2 < S n)%nat) by (apply Nat.div_lt; lia).
    rewrite !nth_fin by lia. apply mean_pair.
  - apply nth_fin. rewrite En. apply Nat.div_lt; lia.
Qed.

Lemma deviations_fin l m :
  map (fun x => fabs (fsub x (Fin m))) (map Fin l)
  = map Fin (map (fun x => Rabs (x - m)) l).
Proof. rewrite !map_map. reflexivity. Qed.

Lemma filter_fin (f : float -> bool) l :
  filter f (map Fin l) = map Fin (filter (fun x => f (Fin x)) l).
Proof.
  induction l as [|x t IH]; [reflexivity|].
  cbn [map filter]. destruct (f (Fin x)); cbn [map]; now rewrite IH.
Qed.

(** The filter on finite values, in terms of the reals. *)
Lemma remove_outliers_amd_fin l th :
  l <> [] ->
  remove_outliers_amd (map Fin l) (Fin th)
  = map Fin
      (filter (fun x => Rleb (Rabs (x - RealStats.median l))
                             (th * RealStats.mad l)) l).
Proof.
  intros Hl. unfold remove_outliers_amd, RealStats.mad.
  rewrite (median_fin l Hl), deviations_fin.
  rewrite median_fin by (destruct l; [contradiction|discriminate]).
  rewrite filter_fin. reflexivity.
Qed.




Ltac eval_Rleb :=
  repeat match goal with
    | |- context [Rleb ?a ?b] =>
        first [ rewrite (Rleb_true a b) by lra
              | rewrite (Rleb_false a b) by lra ]
    end.

Lemma median_sample : RealStats.median sample_1_1_1_1_100 = 1.
Proof.
  unfold RealStats.median, RealStats.sort, sample_1_1_1_1_100.
  cbn [fold_right RealStats.insert]. eval_Rleb.
  cbn [RealStats.insert]. eval_Rleb.
  cbn [RealStats.insert]. eval_Rleb.
  cbn [RealStats.insert]. eval_Rleb.
  reflexivity.
Qed.

Lemma mad_sample : RealStats.mad sample_1_1_1_1_100 = 0.
Proof.
  unfold RealStats.mad. rewrite median_sample.
  unfold sample_1_1_1_1_100. cbn [map].
  replace (1 - 1) with 0 by lra. replace (100 - 1) with 99 by lra.
  rewrite Rabs_R0, (Rabs_pos_eq 99) by lra.
  unfold RealStats.median, RealStats.sort.
  cbn [fold_right RealStats.insert]. eval_Rleb.
  cbn [RealStats.insert]. eval_Rleb.
  cbn [RealStats.insert]. eval_Rleb.
  cbn [RealStats.insert]. eval_Rleb.
  reflexivity.
Qed.

(** The filter drops [100] from [[1; 1; 1; 1; 100]]. *)
Example remove_outliers_amd_sample :
  remove_outliers_amd (map Fin sample_1_1_1_1_100) default_threshold
  = map Fin [1; 1; 1; 1].
Proof.
  unfold default_threshold.
  rewrite remove_outliers_amd_fin by discriminate.
  rewrite median_sample, mad_sample. unfold sample_1_1_1_1_100.
  cbn [filter].
  replace (1 - 1) with 0 by lra. replace (100 - 1) with 99 by lra.
  rewrite Rabs_R0, (Rabs_pos_eq 99) by lra.
  eval_Rleb. reflexivity.
Qed.

End FilterFacts.

Module FilterClaims.
Import Float FloatFacts App FilterFacts Runs.
Local Open Scope R_scope.



End FilterClaims.

(* ================================================================== *)
(** * Reversal averaging and the corrected sheet resistance *)

Module PipelineFacts.
Import Float FloatFacts App CorrectionFacts Runs.
Local Open Scope R_scope.

Lemma series_mean_cons x l :
  NpF.series_mean (x :: l)
  = Fin (fold_right Rplus 0 (x :: l) / INR (length (x :: l))).
Proof. reflexivity. Qed.

Lemma Avg_curr_no_current : Avg_curr (map Current df_no_current) = Fin 0.
Proof.
  unfold Avg_curr, df_no_current. cbn [map Current].
  rewrite series_mean_cons. cbn [fold_right length INR].
  rewrite Rabs_R0. f_equal. field.
Qed.

Lemma Volt_corrected_no_current :
  Volt_corrected tp_2 (map Voltage df_no_current) = Fin 1.
Proof.
  unfold Volt_corrected, df_no_current, tp_2.
  cbn [map Voltage initial_zero period duty_cycle].
  change (NpF.slice [1; -1] 0 (0 + Py.int (inject_Z 2 * (1 # 2)))) with [1].
  change (NpF.slice [1; -1] (0 + Py.int (inject_Z 2 * (1 # 2))) (0 + 2))
    with [-1].
  rewrite !series_mean_cons. cbn [fold_right length INR fsub fneg fadd].
  rewrite fdiv_fin by lra. f_equal. field.
Qed.

Lemma Cal_V_I_no_current : Cal_V_I tp_2 df_no_current = PInf.
Proof.
  unfold Cal_V_I.
  rewrite Volt_corrected_no_current, Avg_curr_no_current.
  unfold fdiv, inf_of_sign.
  rewrite Reqb_true by reflexivity. rewrite Rltb_true by lra. reflexivity.
Qed.

(** [+0.01 V] then [-0.01 V] at [50 uA]: the ratio is [200]. *)
Example Cal_V_I_50uA : Cal_V_I tp_2 df_50uA = Fin 200.
Proof.
  unfold Cal_V_I, Volt_corrected, Avg_curr, df_50uA, tp_2.
  cbn [map Voltage Current initial_zero period duty_cycle].
  change (NpF.slice [1 / 100; - 1 / 100] 0
            (0 + Py.int (inject_Z 2 * (1 # 2)))) with [1 / 100].
  change (NpF.slice [1 / 100; - 1 / 100]
            (0 + Py.int (inject_Z 2 * (1 # 2))) (0 + 2)) with [- 1 / 100].
  rewrite !series_mean_cons. cbn [fold_right length INR fsub fneg fadd].
  rewrite (Rabs_pos_eq (5 / 100000)) by lra.
  replace (Rabs (- 5 / 100000)) with (5 / 100000)
    by (rewrite Rabs_left; lra).
  rewrite fdiv_fin by lra. rewrite fdiv_fin by lra. f_equal. field.
Qed.


End PipelineFacts.

Module PipelineClaims.
Import Float FloatFacts App CorrectionFacts PipelineFacts Runs.
Local Open Scope R_scope.

(** C3 as stated fails: on a series whose currents are all zero (manual
    mode, advanced settings, two samples per cycle) the average current is
    [0] and the analysis raises nothing; it ends with the ratio [+inf]. *)
Lemma zero_current_gives_infinite_ratio :
  Avg_curr (map Current df_no_current) = Fin 0 /\
  exists o,
    manual_analysis tp_2 true df_no_current None = Ok o /\
    ratios o = [PInf].
Proof.
  split; [exact Avg_curr_no_current|].
  unfold manual_analysis. cbn [negb].
  eexists. split; [reflexivity|].
  cbn [ratios]. now rewrite Cal_V_I_no_current.
Qed.

(** C3, amended.  The ratio of a series is
    [correctedVoltage / averageCurrent] with [averageCurrent = mean(|current|)]
    over the whole series; when [averageCurrent = 0] no error is raised and
    the ratio is [+inf], [-inf] or NaN, by the sign of the corrected
    voltage. *)
Theorem reversal_ratio (tp : test_param) (df : list row) :
  Cal_V_I tp df
  = fdiv (Volt_corrected tp (map Voltage df)) (Avg_curr (map Current df)) /\
  (df <> [] ->
   Avg_curr (map Current df)
   = Fin (fold_right Rplus 0 (map (fun r => Rabs (Current r)) df)
          / INR (length df))) /\
  (forall v a,
      Volt_corrected tp (map Voltage df) = Fin v ->
      Avg_curr (map Current df) = Fin a -> a <> 0 ->
      Cal_V_I tp df = Fin (v / a)) /\
  (forall v,
      Volt_corrected tp (map Voltage df) = Fin v ->
      Avg_curr (map Current df) = Fin 0 ->
      (0 < v -> Cal_V_I tp df = PInf) /\
      (v < 0 -> Cal_V_I tp df = NInf) /\
      (v = 0 -> Cal_V_I tp df = NaN)).
Proof.
  split; [reflexivity|]. split; [|split].
  - intros Hne. destruct df as [|r t]; [contradiction|].
    unfold Avg_curr. rewrite !map_map.
    cbn [map]. rewrite series_mean_cons.
    cbn [length]. now rewrite length_map.
  - intros v a Hv Ha Hnz. unfold Cal_V_I. rewrite Hv, Ha.
    now apply fdiv_fin.
  - intros v Hv Ha. unfold Cal_V_I. rewrite Hv, Ha.
    unfold fdiv, inf_of_sign. rewrite Reqb_true by reflexivity.
    repeat split; intros H.
    + now rewrite Rltb_true.
    + rewrite Rltb_false by lra. now rewrite Rltb_true.
    + rewrite !Rltb_false by lra. reflexivity.
Qed.



End PipelineClaims.

(* ================================================================== *)
(** * The start of a test *)

Module FlowFacts.
Import Flow.

Lemma guarded_mono evs : forall seen seen',
  incl seen seen' -> guarded seen evs -> guarded seen' evs.
Proof.
  induction evs as [|e rest IH]; intros seen seen' Hincl H; [exact I|].
  destruct e; cbn [guarded] in *; try (eapply IH; eassumption).
  - eapply IH; [|exact H]. intros x [->|Hx]; [now left|right; auto].
  - destruct H as [H1 [H2 H3]]. repeat split; auto. eapply IH; eassumption.
Qed.

Lemma guarded_call wave value rest seen :
  guarded ((- value)%Q :: value :: seen) rest ->
  guarded seen (generate_square_wave_call wave value ++ rest).
Proof.
  intros H. cbn. repeat split.
  - right. now left.
  - now left.
  - exact H.
Qed.

Lemma guarded_auto wave values : forall seen,
  guarded seen
    (flat_map (fun value => generate_square_wave_call wave value
                              ++ [Measure_List]) values).
Proof.
  induction values as [|v t IH]; intros seen; [exact I|].
  cbn [flat_map]. rewrite <- app_assoc. apply guarded_call.
  cbn [app guarded]. apply IH.
Qed.

Lemma guarded_app_nowave evs rest seen :
  guarded seen evs -> (forall seen', guarded seen' rest) ->
  guarded seen (evs ++ rest).
Proof.
  revert seen. induction evs as [|e t IH]; intros seen H Hr; [apply Hr|].
  destruct e; cbn [app guarded] in *; try (apply IH; assumption).
  destruct H as [H1 [H2 H3]]. repeat split; auto.
Qed.

Lemma guarded_measurement_block s : forall seen,
  guarded seen (fst (measurement_block s)).
Proof.
  intros seen. unfold measurement_block.
  destruct (test_initiated s); [|exact I].
  destruct (safe s) as [[|]|]; try exact I.
  destruct (manual_mode_enable s); [exact I|].
  destruct (test_param s) as [p|]; [|exact I].
  unfold Auto_Test_Initiation.
  destruct (p_curr_value p) as [v|[|v t]]; cbn [fst]; try exact I.
  apply guarded_auto.
Qed.

(** The events and the session of a pass, block by block. *)
Lemma pass_unfold s w :
  pass s w =
  let r := safety_block (at_test_start s w) w in
  if snd r
  then (fst (fst r) ++ fst (measurement_block (snd (fst r))),
        snd (measurement_block (snd (fst r))))
  else fst r.
Proof.
  unfold pass, at_test_start.
  destruct (safety_block (start_button (stamp_mode s w) w) w)
    as [[ev2 s2] go_on].
  cbn [fst snd]. destruct go_on; [|reflexivity].
  now destruct (measurement_block s2).
Qed.

Lemma safety_block_guarded s w :
  guarded [] (fst (fst (safety_block s w))).
Proof.
  unfold safety_block.
  destruct (test_initiated s); [|exact I].
  destruct (safe s); [exact I|].
  destruct (test_param s) as [p|]; [|exact I].
  destruct (p_curr_value p) as [v|l]; [|exact I].
  destruct (negb _).
  - destruct (safety_override w) as [answer|]; [|exact I].
    destruct (String.eqb (lower answer) "y"); [|exact I].
    cbn [fst app guarded generate_square_wave_call In]. auto 8.
  - cbn [fst app guarded generate_square_wave_call In]. auto 8.
Qed.

(** A pass generates no wave whose levels it has not checked before. *)
Lemma pass_guarded s w : guarded [] (fst (pass s w)).
Proof.
  rewrite pass_unfold. cbv zeta.
  destruct (snd (safety_block (at_test_start s w) w)); cbn [fst].
  - apply guarded_app_nowave; [apply safety_block_guarded|].
    intros seen. apply guarded_measurement_block.
  - apply safety_block_guarded.
Qed.

(** Every level of auto mode is below the threshold. *)
Lemma auto_levels_safe surf hir_semi value :
  In value (auto_curr_value surf hir_semi) ->
  WaveGen._check_safety (WaveGen.init_default_threshold (-6)) value = true.
Proof.
  destruct surf, hir_semi; cbn [auto_curr_value In]; intros H;
    repeat (destruct H as [<-|H]; [vm_compute; reflexivity|]);
    contradiction.
Qed.

Lemma param_dict_auto_params w : auto_params (param_dict w).
Proof.
  unfold param_dict, auto_params.
  destruct (curr_manual w); cbn; intros values H; [discriminate|].
  inversion H; subst. split; [reflexivity|]. eauto.
Qed.

Lemma at_test_start_well_formed s w :
  well_formed s -> well_formed (at_test_start s w).
Proof.
  intros Hs p. unfold at_test_start, start_button, stamp_mode.
  destruct (start_test w), (curr_manual w); cbn; intros H;
    try (inversion H; subst; apply param_dict_auto_params);
    now apply Hs.
Qed.

Lemma safety_block_test_param s w :
  test_param (snd (fst (safety_block s w))) = test_param s.
Proof.
  unfold safety_block.
  destruct (test_initiated s); [|reflexivity].
  destruct (safe s); [reflexivity|].
  destruct (test_param s) as [p|] eqn:Ep; [|cbn; congruence].
  destruct (p_curr_value p); [|cbn; congruence].
  destruct (negb _); [|cbn; congruence].
  destruct (safety_override w) as [a|]; [|cbn; congruence].
  destruct (String.eqb (lower a) "y"); cbn; congruence.
Qed.

Lemma measurement_block_test_param s :
  test_param (snd (measurement_block s)) = test_param s.
Proof.
  unfold measurement_block.
  destruct (test_initiated s); [|reflexivity].
  destruct (safe s) as [[|]|]; try reflexivity.
  destruct (manual_mode_enable s); [reflexivity|].
  destruct (test_param s) as [p|] eqn:E; [|cbn; congruence].
  destruct (p_curr_value p) as [v|[|v t]]; cbn; congruence.
Qed.

Lemma pass_test_param s w :
  test_param (snd (pass s w)) = test_param (at_test_start s w).
Proof.
  rewrite pass_unfold. cbv zeta.
  pose proof (safety_block_test_param (at_test_start s w) w) as H1.
  destruct (snd (safety_block (at_test_start s w) w)); cbn [snd].
  - now rewrite measurement_block_test_param.
  - exact H1.
Qed.

(** The sessions that can be reached hold lists of levels of auto mode
    only. *)
Lemma reachable_well_formed s : reachable s -> well_formed s.
Proof.
  induction 1 as [|s w Hr IH].
  - intros p H. discriminate H.
  - intros p H. rewrite pass_test_param in H.
    exact (at_test_start_well_formed s w IH p H).
Qed.

End FlowFacts.

Module FlowClaims.
Import Flow FlowFacts.

Lemma manual_at_test_start s w :
  curr_manual w = true ->
  safe (at_test_start s w) = None /\
  manual_mode_enable (at_test_start s w) = true.
Proof.
  intros H. unfold at_test_start, start_button, stamp_mode. rewrite H.
  destruct (start_test w); split; reflexivity.
Qed.

Lemma auto_at_test_start s w :
  curr_manual w = false ->
  safe (at_test_start s w) = Some true /\
  manual_mode_enable (at_test_start s w) = false.
Proof.
  intros H. unfold at_test_start, start_button, stamp_mode. rewrite H.
  destruct (start_test w); split; reflexivity.
Qed.

(** The pass of manual mode over a pending test whose level is unsafe. *)
Lemma manual_unsafe_pass s w p v :
  curr_manual w = true ->
  test_param (at_test_start s w) = Some p ->
  p_curr_value p = Scalar v ->
  test_initiated (at_test_start s w) = true ->
  WaveGen._check_safety (WaveGen.init_default_threshold (p_magnitude p)) v
    = false ->
  pass s w =
  match safety_override w with
  | Some answer =>
      if String.eqb (lower answer) "y" then
        ([CheckSafety v false; Warning_danger]
           ++ generate_square_wave_call
                (WaveGen.init_default_threshold (p_magnitude p)) v
           ++ [Measure_List],
         mk_session (Some p) false None true)
      else
        ([CheckSafety v false; Warning_danger; Warning_stopped; Rerun],
         mk_session (Some p) false (Some false) true)
  | None =>
      ([CheckSafety v false; Warning_danger] ++ [], at_test_start s w)
  end.
Proof.
  intros Hm Hp Hv Hi Hc.
  destruct (manual_at_test_start s w Hm) as [Hs He].
  rewrite pass_unfold. cbv zeta. unfold safety_block.
  rewrite Hi, Hs, Hp, Hv, Hc. cbn [negb].
  destruct (safety_override w) as [answer|].
  - destruct (String.eqb (lower answer) "y").
    + cbn [fst snd]. unfold measurement_block.
      cbn [test_initiated safe manual_mode_enable test_param].
      rewrite ?Hi, ?He, ?Hp. cbn [fst snd]. reflexivity.
    + cbn [fst snd]. rewrite ?He, ?Hp. reflexivity.
  - cbn [fst snd]. unfold measurement_block. rewrite ?Hi, ?Hs. reflexivity.
Qed.

Lemma not_generated_nor_measured evs :
  (forall e, In e evs ->
     match e with GenerateWave _ _ | Measure_List => False | _ => True end) ->
  ~ generated evs /\ ~ measured evs.
Proof.
  intros H. split.
  - intros [hi [lo Hin]]. exact (H _ Hin).
  - intros Hin. exact (H _ Hin).
Qed.

(** Whatever the session, a pass that generates a wave or measures while a
    level of the run is unsafe has read an affirmative answer. *)
Lemma proceed_needs_yes s w p v :
  well_formed s ->
  test_param (at_test_start s w) = Some p ->
  In v (levels_of p) ->
  WaveGen._check_safety (WaveGen.init_default_threshold (p_magnitude p)) v
    = false ->
  generated (fst (pass s w)) \/ measured (fst (pass s w)) ->
  exists answer,
    safety_override w = Some answer /\ lower answer = "y"%string.
Proof.
  intros Hwf Hp Hv Hc Hgo.
  pose proof (at_test_start_well_formed s w Hwf p Hp) as Hauto.
  unfold levels_of in Hv.
  destruct (p_curr_value p) as [v0|l] eqn:Ev.
  2:{ destruct (Hauto l Ev) as [Hmag [surf [hir ->]]].
      rewrite Hmag in Hc.
      rewrite (auto_levels_safe surf hir v Hv) in Hc. discriminate. }
  destruct Hv as [<-|[]].
  assert (Hnone : forall evs,
            fst (pass s w) = evs ->
            (forall e, In e evs ->
               match e with
               | GenerateWave _ _ | Measure_List => False
               | _ => True
               end) -> False).
  { intros evs Hevs Hall. rewrite Hevs in Hgo.
    destruct (not_generated_nor_measured evs Hall) as [H1 H2].
    destruct Hgo; contradiction. }
  destruct (curr_manual w) eqn:Em.
  - destruct (manual_at_test_start s w Em) as [Hs He].
    destruct (test_initiated (at_test_start s w)) eqn:Ei.
    + pose proof (manual_unsafe_pass s w p v0 Em Hp Ev Ei Hc) as Hpass.
      destruct (safety_override w) as [answer|].
      * destruct (String.eqb (lower answer) "y") eqn:Ey.
        { exists answer. split; [reflexivity|]. now apply String.eqb_eq. }
        exfalso. eapply Hnone; [now rewrite Hpass|].
        intros e He'. cbn in He'.
        repeat (destruct He' as [<-|He']; [exact I|]). contradiction.
      * exfalso. eapply Hnone; [now rewrite Hpass|].
        intros e He'. cbn in He'.
        repeat (destruct He' as [<-|He']; [exact I|]). contradiction.
    + exfalso. eapply Hnone.
      * rewrite pass_unfold. cbv zeta. unfold safety_block, measurement_block.
        rewrite Ei. cbn [fst snd]. rewrite Ei. reflexivity.
      * intros e [].
  - destruct (auto_at_test_start s w Em) as [Hs He].
    exfalso. eapply Hnone.
    + rewrite pass_unfold. cbv zeta. unfold safety_block.
      rewrite Hs.
      replace (match test_initiated (at_test_start s w) with
               | true => ([], at_test_start s w, true)
               | false => ([], at_test_start s w, true)
               end)
        with (@nil event, at_test_start s w, true)
        by (destruct (test_initiated (at_test_start s w)); reflexivity).
      cbn [fst snd app]. unfold measurement_block, Auto_Test_Initiation.
      rewrite Hs, He, Hp, Ev. reflexivity.
    + destruct (test_initiated (at_test_start s w)); cbn [fst];
        intros e He'; [|contradiction].
      destruct He' as [<-|[]]. exact I.
Qed.

(** An affirmative answer: check, warning, wave, measurement. *)
Example pass_with_yes :
  pass fresh (Runs.press_start_2A (Some "Y"%string))
  = ([CheckSafety 2 false; Warning_danger;
      CheckSafety 2 false; CheckSafety (-2) false; GenerateWave 2 (-2);
      Measure_List],
     mk_session (Some (mk_params (Scalar 2) 0)) false None true).
Proof. reflexivity. Qed.

(** Any other answer: check, warning, abort. *)
Example pass_with_no :
  pass fresh (Runs.press_start_2A (Some "N"%string))
  = ([CheckSafety 2 false; Warning_danger; Warning_stopped; Rerun],
     mk_session (Some (mk_params (Scalar 2) 0)) false (Some false) true).
Proof. reflexivity. Qed.

(** C5 as stated fails: when the user gives no answer to the override
    question the pass reports no abort and the test stays pending. *)
Lemma no_answer_reports_no_abort :
  fst (pass fresh (Runs.press_start_2A None))
    = [CheckSafety 2 false; Warning_danger] /\
  ~ abort_reported (fst (pass fresh (Runs.press_start_2A None))) /\
  test_initiated (snd (pass fresh (Runs.press_start_2A None))) = true.
Proof.
  assert (H : pass fresh (Runs.press_start_2A None)
              = ([CheckSafety 2 false; Warning_danger],
                 mk_session
                   (Some (mk_params (Scalar 2) 0)) true None true))
    by reflexivity.
  rewrite H. cbn [fst snd test_initiated]. repeat split.
  unfold abort_reported. cbn [In].
  intros [Hx|[Hx|[]]]; discriminate Hx.
Qed.

(** C5, amended.  In every pass each wave is generated after the safety
    check of its levels.  From any session that can be reached, a pass
    generates a wave or starts a measurement while a requested level is
    unsafe only if the user gave an affirmative answer.  In manual mode
    with a pending test and an unsafe level: an affirmative answer lets the
    wave be generated and the measurement start; any other answer halts the
    run with a reported abort; no answer leaves the run blocked, nothing
    generated, nothing measured and no abort reported. *)
Theorem safety_override_policy :
  (forall s w, guarded [] (fst (pass s w))) /\
  (forall s w p v,
      reachable s ->
      test_param (at_test_start s w) = Some p ->
      In v (levels_of p) ->
      WaveGen._check_safety
        (WaveGen.init_default_threshold (p_magnitude p)) v = false ->
      generated (fst (pass s w)) \/ measured (fst (pass s w)) ->
      exists answer,
        safety_override w = Some answer /\ lower answer = "y"%string) /\
  (forall s w p v,
      curr_manual w = true ->
      test_param (at_test_start s w) = Some p ->
      p_curr_value p = Scalar v ->
      test_initiated (at_test_start s w) = true ->
      WaveGen._check_safety
        (WaveGen.init_default_threshold (p_magnitude p)) v = false ->
      (forall answer,
          safety_override w = Some answer -> lower answer = "y"%string ->
          generated (fst (pass s w)) /\ measured (fst (pass s w))) /\
      (forall answer,
          safety_override w = Some answer -> lower answer <> "y"%string ->
          abort_reported (fst (pass s w)) /\
          ~ generated (fst (pass s w)) /\ ~ measured (fst (pass s w)) /\
          test_initiated (snd (pass s w)) = false /\
          safe (snd (pass s w)) = Some false) /\
      (safety_override w = None ->
          ~ abort_reported (fst (pass s w)) /\
          ~ generated (fst (pass s w)) /\ ~ measured (fst (pass s w)) /\
          test_initiated (snd (pass s w)) = true /\
          safe (snd (pass s w)) = None)).
Proof.
  split; [exact pass_guarded|]. split.
  - intros s w p v Hr. apply proceed_needs_yes.
    now apply reachable_well_formed.
  - intros s w p v Hm Hp Hv Hi Hc.
    pose proof (manual_unsafe_pass s w p v Hm Hp Hv Hi Hc) as Hpass.
    destruct (manual_at_test_start s w Hm) as [Hs He].
    split; [|split].
    + intros answer Ha Hy. rewrite Hpass, Ha.
      apply String.eqb_eq in Hy. rewrite Hy. cbn [fst]. split.
      * exists v, (- v)%Q. cbn. auto 8.
      * unfold measured. cbn. auto 8.
    + intros answer Ha Hy. rewrite Hpass, Ha.
      apply String.eqb_neq in Hy. rewrite Hy. cbn [fst snd].
      split; [unfold abort_reported; cbn; auto|].
      destruct (not_generated_nor_measured
                  [CheckSafety v false; Warning_danger; Warning_stopped;
                   Rerun]) as [H1 H2].
      { intros e He'. cbn in He'.
        repeat (destruct He' as [<-|He']; [exact I|]). contradiction. }
      repeat split; assumption.
    + intros Ha. rewrite Hpass, Ha. cbn [fst snd app].
      split.
      { unfold abort_reported. cbn [In].
        intros [Hx|[Hx|[]]]; discriminate Hx. }
      destruct (not_generated_nor_measured
                  [CheckSafety v false; Warning_danger]) as [H1 H2].
      { intros e He'. cbn in He'.
        repeat (destruct He' as [<-|He']; [exact I|]). contradiction. }
      repeat split; assumption.
Qed.

End FlowClaims.

(* ================================================================== *)
(** * More about [WaveGen] *)

Module WaveGenMore.
Import WaveGen WaveGenFacts Shape.

Lemma fill_from_Forall (P : Q -> Prop) v arr : forall j lo hi,
  P v -> Forall P arr -> Forall P (Np.fill_from j lo hi v arr).
Proof.
  induction arr as [|x t IH]; intros j lo hi Hv H; [constructor|].
  inversion H; subst. cbn [Np.fill_from]. constructor.
  - destruct ((lo <=? j) && (j <? hi)); assumption.
  - now apply IH.
Qed.

Lemma slice_assign_Forall (P : Q -> Prop) arr a b v :
  P v -> Forall P arr -> Forall P (Np.slice_assign arr a b v).
Proof. intros. now apply fill_from_Forall. Qed.

Lemma while_loop_Forall (P : Q -> Prop) len hi lo period hd :
  P hi -> P lo ->
  forall fuel i w w',
    Forall P w -> while_loop fuel len hi lo period hd i w = Some w' ->
    Forall P w'.
Proof.
  intros Hhi Hlo. induction fuel as [|fuel IH]; intros i w w' Hw H;
    cbn [while_loop] in H; [discriminate|].
  destruct (i <? len); [|now inversion H; subst].
  unfold loop_body in H.
  destruct (i + hd <=? len).
  - destruct (i + hd + (period - hd) <=? len).
    + eapply IH; [|exact H]. now repeat apply slice_assign_Forall.
    + inversion H; subst. now repeat apply slice_assign_Forall.
  - inversion H; subst. now apply slice_assign_Forall.
Qed.

Lemma zeros_ok len : 0 <= len -> Np.zeros len = Ok (repeat 0%Q (Z.to_nat len)).
Proof.
  intros H. unfold Np.zeros. destruct (len <? 0) eqn:E; [lia|reflexivity].
Qed.

Lemma zeros_negative len : len < 0 -> Np.zeros len = Raise ValueError.
Proof.
  intros H. unfold Np.zeros. destruct (len <? 0) eqn:E; [reflexivity|lia].
Qed.

(** X1.  Whatever the arguments (a negative [init_time], a duty cycle
    outside [0, 1], a negative period), every cell of an array that
    [generate_square_wave] returns holds [0], the scaled high value or the
    scaled low value. *)
Theorem square_wave_three_levels fuel self len hv lv period dc init_time w :
  generate_square_wave fuel self len hv lv period dc init_time
    = Some (Ok w) ->
  Forall (fun x => x = 0%Q \/ x = (hv * magnitude self)%Q
                   \/ x = (lv * magnitude self)%Q) w.
Proof.
  unfold generate_square_wave.
  destruct (Np.zeros len) as [z|e] eqn:Ez; [|discriminate].
  destruct (while_loop _ _ _ _ _ _ _ _) as [w1|] eqn:El; [|discriminate].
  intros H; inversion H; subst.
  eapply while_loop_Forall; [| |eapply Forall_forall|exact El]; auto.
  intros x Hx. left.
  unfold Np.zeros in Ez. destruct (len <? 0); [discriminate|].
  inversion Ez; subst. now apply repeat_spec in Hx.
Qed.

Lemma square_wave_three_levels_witness :
  Forall (fun x => x = 0%Q \/ x = (3 * magnitude (init 0 1))%Q
                   \/ x = (-3 * magnitude (init 0 1))%Q)
    [0; 0; -3 * 1; 3 * 1; 3 * 1]%Q.
Proof.
  apply (square_wave_three_levels 3 (init 0 1) 5 3 (-3) 4 (3 # 4) (-1)).
  vm_compute. reflexivity.
Defined.

(** X2.  Degenerate lengths.  A negative [length] raises [ValueError]
    before the loop, whatever the other arguments (a zero period
    included); with [0 <= length <= init_time] the loop is not entered and
    the array returned is all zeros, a zero period included. *)
Theorem square_wave_degenerate_lengths :
  (forall fuel self len hv lv period dc init_time,
      len < 0 ->
      generate_square_wave fuel self len hv lv period dc init_time
      = Some (Raise ValueError)) /\
  (forall fuel self len hv lv period dc init_time,
      0 <= len <= init_time ->
      generate_square_wave (S fuel) self len hv lv period dc init_time
      = Some (Ok (repeat 0%Q (Z.to_nat len)))).
Proof.
  split.
  - intros fuel self len hv lv period dc init_time H.
    unfold generate_square_wave. now rewrite zeros_negative.
  - intros fuel self len hv lv period dc init_time H.
    unfold generate_square_wave. rewrite zeros_ok by lia.
    cbn [while_loop]. destruct (init_time <? len) eqn:E; [lia|reflexivity].
Qed.

Lemma floor_duty_0 period : Qfloor (inject_Z period * 0) = 0.
Proof.
  unfold Qfloor, Qmult, inject_Z. cbn [Qnum Qden].
  rewrite Z.mul_0_r. reflexivity.
Qed.

Lemma floor_duty_1 period : Qfloor (inject_Z period * 1) = period.
Proof.
  unfold Qfloor, Qmult, inject_Z. cbn [Qnum Qden].
  rewrite Z.mul_1_r. apply Z.div_1_r.
Qed.

(** X3.  The two ends of the duty-cycle slider.  For [length >= 0],
    [period > 0] and [init_time >= 0]: with [duty_cycle = 0] every sample
    from [init_time] on is the scaled low value, with [duty_cycle = 1]
    every one is the scaled high value; the wave never reverses. *)
Theorem square_wave_duty_extremes self len hv lv period init_time :
  0 <= len -> 0 < period -> 0 <= init_time ->
  (exists fuel w,
      generate_square_wave fuel self len hv lv period 0 init_time
        = Some (Ok w) /\
      Z.of_nat (length w) = len /\
      forall k, init_time <= k < len ->
        nth (Z.to_nat k) w 0%Q = (lv * magnitude self)%Q) /\
  (exists fuel w,
      generate_square_wave fuel self len hv lv period 1 init_time
        = Some (Ok w) /\
      Z.of_nat (length w) = len /\
      forall k, init_time <= k < len ->
        nth (Z.to_nat k) w 0%Q = (hv * magnitude self)%Q).
Proof.
  intros Hlen Hp Hinit. split.
  - destruct (generate_square_wave_spec self len hv lv period 0 init_time)
      as [fuel [w [Hrun [Hl Hw]]]]; try assumption;
      try (unfold Qle; simpl; lia).
    exists fuel, w. repeat split; try assumption.
    intros k Hk. rewrite Hw by lia. rewrite floor_duty_0.
    destruct (k <? init_time) eqn:E; [lia|].
    pose proof (Z.mod_pos_bound (k - init_time) period Hp).
    destruct ((k - init_time) mod period <? 0) eqn:E1; [lia|reflexivity].
  - destruct (generate_square_wave_spec self len hv lv period 1 init_time)
      as [fuel [w [Hrun [Hl Hw]]]]; try assumption;
      try (unfold Qle; simpl; lia).
    exists fuel, w. repeat split; try assumption.
    intros k Hk. rewrite Hw by lia. rewrite floor_duty_1.
    destruct (k <? init_time) eqn:E; [lia|].
    pose proof (Z.mod_pos_bound (k - init_time) period Hp).
    destruct ((k - init_time) mod period <? period) eqn:E1;
      [reflexivity|lia].
Qed.

Lemma square_wave_duty_extremes_witness :
  (exists fuel w,
      generate_square_wave fuel (init (-6) 1) 6 50 (-50) 3 0 1
        = Some (Ok w) /\
      Z.of_nat (length w) = 6 /\
      forall k, 1 <= k < 6 ->
        nth (Z.to_nat k) w 0%Q = (-50 * magnitude (init (-6) 1))%Q) /\
  (exists fuel w,
      generate_square_wave fuel (init (-6) 1) 6 50 (-50) 3 1 1
        = Some (Ok w) /\
      Z.of_nat (length w) = 6 /\
      forall k, 1 <= k < 6 ->
        nth (Z.to_nat k) w 0%Q = (50 * magnitude (init (-6) 1))%Q).
Proof.
  apply (square_wave_duty_extremes (init (-6) 1) 6 50 (-50) 3 1); lia.
Defined.

(** X4.  [generate_pulse_wave] raises [ValueError] whenever
    [pulse_position + pulse_width > length]; with a position and a width
    that are not negative and fit, it returns [length] cells that hold the
    scaled high value on [pulse_position <= k < pulse_position +
    pulse_width] and [0] elsewhere. *)
Theorem pulse_wave_shape self len width position hv :
  (len < position + width ->
     generate_pulse_wave self len width position hv = Raise ValueError) /\
  (0 <= position -> 0 <= width -> position + width <= len ->
     exists w,
       generate_pulse_wave self len width position hv = Ok w /\
       Z.of_nat (length w) = len /\
       forall k, 0 <= k < len ->
         nth (Z.to_nat k) w 0%Q =
         if (position <=? k) && (k <? position + width)
         then (hv * magnitude self)%Q else 0%Q).
Proof.
  unfold generate_pulse_wave. split.
  - intros H. destruct (len <? position + width) eqn:E; [reflexivity|lia].
  - intros Hp Hw Hfit.
    destruct (len <? position + width) eqn:E; [lia|].
    rewrite zeros_ok by lia.
    eexists. split; [reflexivity|].
    split; [rewrite slice_assign_length, repeat_length; lia|].
    intros k Hk. rewrite nth_slice_assign by (rewrite ?repeat_length; lia).
    destruct ((position <=? k) && (k <? position + width));
      [reflexivity|apply nth_repeat].
Qed.

Lemma check_safety_false_iff self v :
  _check_safety self v = false <->
  (threshold self <= Qabs (v * magnitude self))%Q.
Proof.
  unfold _check_safety.
  destruct (Qle_bool (threshold self) (Qabs (v * magnitude self))) eqn:E.
  - apply Qle_bool_iff in E. split; auto.
  - split; [discriminate|]. intros H. apply Qle_bool_iff in H. congruence.
Qed.

(** X5.  The safety check looks at the magnitude only: it gives the same
    answer for a value and its opposite (the low level of a test is the
    opposite of the high one), and a value at most as large in magnitude as
    a safe one is safe. *)
Theorem check_safety_by_magnitude self :
  (forall v, _check_safety self (- v)%Q = _check_safety self v) /\
  (forall v1 v2,
      (Qabs v1 <= Qabs v2)%Q ->
      _check_safety self v2 = true -> _check_safety self v1 = true).
Proof.
  assert (Hmono : forall v1 v2,
             (Qabs v1 <= Qabs v2)%Q ->
             _check_safety self v1 = false -> _check_safety self v2 = false).
  { intros v1 v2 Hle H. apply check_safety_false_iff in H.
    apply check_safety_false_iff.
    eapply Qle_trans; [exact H|].
    rewrite !Qabs_Qmult. apply Qmult_le_compat_r; [exact Hle|].
    apply Qabs_nonneg. }
  split.
  - intros v.
    destruct (_check_safety self v) eqn:E1,
             (_check_safety self (- v)%Q) eqn:E2; try reflexivity.
    + rewrite (Hmono (- v)%Q v) in E1; [discriminate| |exact E2].
      rewrite Qabs_opp. apply Qle_refl.
    + rewrite (Hmono v (- v)%Q) in E2; [discriminate| |exact E1].
      rewrite Qabs_opp. apply Qle_refl.
  - intros v1 v2 Hle H2.
    destruct (_check_safety self v1) eqn:E1; [reflexivity|].
    rewrite (Hmono v1 v2 Hle E1) in H2. discriminate.
Qed.

End WaveGenMore.

(* ================================================================== *)
(** * More about the outlier filter *)

Module FilterMore.
Import Float FloatFacts App FilterFacts.
Local Open Scope R_scope.

Lemma insert_In x y l : In x (RealStats.insert y l) <-> x = y \/ In x l.
Proof.
  induction l as [|z t IH]; cbn [RealStats.insert In].
  - intuition.
  - destruct (Rleb y z); cbn [In]; rewrite ?IH; intuition.
Qed.

Lemma sort_In x l : In x (RealStats.sort l) <-> In x l.
Proof.
  induction l as [|y t IH]; [reflexivity|].
  unfold RealStats.sort in *. cbn [fold_right In].
  rewrite insert_In, IH. intuition.
Qed.

(** The median lies between two of the values. *)
Lemma median_between l :
  l <> [] ->
  exists a b, In a l /\ In b l /\
              a <= RealStats.median l <= b.
Proof.
  intros Hl. unfold RealStats.median.
  pose proof (sort_length l) as Hn.
  set (s := RealStats.sort l) in *.
  assert (Hpos : (0 < length s)%nat).
  { rewrite Hn. destruct l; [contradiction|cbn; lia]. }
  assert (Hmid : (length s / 2 < length s)%nat) by (apply Nat.div_lt; lia).
  assert (Hin : forall k, (k < length s)%nat -> In (nth k s 0) l).
  { intros k Hk. apply (sort_In _ l). now apply nth_In. }
  destruct (Nat.even (length s)).
  - pose proof (Hin (length s / 2 - 1)%nat ltac:(lia)) as Ha.
    pose proof (Hin (length s / 2)%nat Hmid) as Hb.
    set (a := nth (length s / 2 - 1) s 0) in *.
    set (b := nth (length s / 2) s 0) in *.
    destruct (Rle_dec a b).
    + exists a, b. repeat split; try assumption; lra.
    + exists b, a. repeat split; try assumption; lra.
  - exists (nth (length s / 2) s 0), (nth (length s / 2) s 0).
    repeat split; auto; lra.
Qed.

Lemma sum_fin l : forall acc,
  fold_left fadd (map Fin l) (Fin acc) = Fin (fold_left Rplus l acc).
Proof.
  induction l as [|x t IH]; intros acc; [reflexivity|].
  cbn [map fold_left fadd]. apply IH.
Qed.

Lemma mean_fin l :
  l <> [] ->
  NpF.mean (map Fin l) = Fin (fold_left Rplus l 0 / INR (length l)).
Proof.
  intros Hl. destruct l as [|x t]; [contradiction|].
  unfold NpF.mean, NpF.sum. cbn [map]. rewrite <- (map_cons Fin x t).
  rewrite sum_fin, length_map. apply fdiv_fin.
  apply not_0_INR. discriminate.
Qed.

Lemma filter_all {A} (f : A -> bool) l :
  (forall x, In x l -> f x = true) -> filter f l = l.
Proof.
  induction l as [|x t IH]; intros H; [reflexivity|].
  cbn [filter]. rewrite (H x (or_introl eq_refl)).
  f_equal. apply IH. intros y Hy. apply H. now right.
Qed.

Lemma filter_none {A} (f : A -> bool) l :
  (forall x, In x l -> f x = false) -> filter f l = [].
Proof.
  induction l as [|x t IH]; intros H; [reflexivity|].
  cbn [filter]. rewrite (H x (or_introl eq_refl)).
  apply IH. intros y Hy. apply H. now right.
Qed.

(** X6.  On a non-empty list of finite ratios the default filter never
    rejects everything: a value whose deviation is at most the median
    deviation is kept, so the average of the kept ratios is a finite
    number. *)
Theorem remove_outliers_amd_keeps_one (values : list R) :
  values <> [] ->
  exists kept,
    kept <> [] /\
    remove_outliers_amd (map Fin values) default_threshold = map Fin kept /\
    NpF.mean (remove_outliers_amd (map Fin values) default_threshold)
    = Fin (fold_left Rplus kept 0 / INR (length kept)).
Proof.
  intros Hne. unfold default_threshold.
  rewrite (remove_outliers_amd_fin values (16 / 10) Hne).
  set (kept := filter _ values).
  assert (Hk : kept <> []).
  { assert (Hdev : map (fun x => Rabs (x - RealStats.median values)) values
                   <> [])
      by (destruct values; [contradiction|discriminate]).
    destruct (median_between _ Hdev) as [d [_ [Hd [_ [Hle _]]]]].
    apply in_map_iff in Hd. destruct Hd as [x [Hx Hin]].
    assert (Hkept : In x kept).
    { apply filter_In. split; [exact Hin|]. apply Rleb_iff.
      fold (RealStats.mad values) in Hle.
      pose proof (Rabs_pos (x - RealStats.median values)). lra. }
    intros E. rewrite E in Hkept. contradiction. }
  exists kept. repeat split; [exact Hk|]. now apply mean_fin.
Qed.

Lemma remove_outliers_amd_keeps_one_witness :
  exists kept,
    kept <> [] /\
    remove_outliers_amd (map Fin [1; 1; 1; 1; 100]) default_threshold
    = map Fin kept /\
    NpF.mean (remove_outliers_amd (map Fin [1; 1; 1; 1; 100])
                default_threshold)
    = Fin (fold_left Rplus kept 0 / INR (length kept)).
Proof.
  apply (remove_outliers_amd_keeps_one [1; 1; 1; 1; 100]). discriminate.
Defined.

(** X7.  A non-empty list of identical finite ratios goes through the
    default filter unchanged. *)
Theorem remove_outliers_amd_constant (values : list R) (c : R) :
  values <> [] -> (forall x, In x values -> x = c) ->
  remove_outliers_amd (map Fin values) default_threshold = map Fin values.
Proof.
  intros Hne Hc. unfold default_threshold.
  rewrite (remove_outliers_amd_fin values (16 / 10) Hne).
  assert (Hmed : RealStats.median values = c).
  { destruct (median_between values Hne) as [a [b [Ha [Hb Hab]]]].
    rewrite (Hc a Ha), (Hc b Hb) in Hab. lra. }
  assert (Hmad : RealStats.mad values = 0).
  { unfold RealStats.mad.
    assert (Hdev : map (fun x => Rabs (x - RealStats.median values)) values
                   <> [])
      by (destruct values; [contradiction|discriminate]).
    destruct (median_between _ Hdev) as [a [b [Ha [Hb Hab]]]].
    assert (Hz : forall d,
               In d (map (fun x => Rabs (x - RealStats.median values))
                       values) -> d = 0).
    { intros d Hd. apply in_map_iff in Hd. destruct Hd as [x [<- Hx]].
      rewrite Hmed, (Hc x Hx), Rminus_diag. apply Rabs_R0. }
    rewrite (Hz a Ha), (Hz b Hb) in Hab. lra. }
  rewrite Hmed, Hmad. f_equal. apply filter_all.
  intros x Hx. rewrite (Hc x Hx), Rminus_diag, Rabs_R0.
  apply Rleb_true. lra.
Qed.

Lemma remove_outliers_amd_constant_witness :
  remove_outliers_amd (map Fin [2; 2; 2; 2]) default_threshold
  = map Fin [2; 2; 2; 2].
Proof.
  apply (remove_outliers_amd_constant [2; 2; 2; 2] 2); [discriminate|].
  cbn [In]. intros x H. intuition.
Defined.

Lemma median_nan data : In NaN data -> NpF.median data = NaN.
Proof.
  intros H. unfold NpF.median.
  assert (E : existsb is_nan data = true)
    by (apply existsb_exists; exists NaN; split; [exact H|reflexivity]).
  now rewrite E.
Qed.

Lemma fsub_nan x : fsub x NaN = NaN.
Proof. destruct x; reflexivity. Qed.

Lemma Corr_Rsheet_of_nan tc lc : Corr_Rsheet_of NaN tc lc = NaN.
Proof. reflexivity. Qed.

(** X8.  One NaN among the ratios and the filter rejects every value,
    whatever the threshold; the average of the (empty) rest is NaN and so
    is the corrected sheet resistance computed from it, whatever the
    correction factors. *)
Theorem remove_outliers_amd_nan (data : list float) (threshold : float) :
  In NaN data ->
  remove_outliers_amd data threshold = [] /\
  NpF.mean (remove_outliers_amd data threshold) = NaN /\
  forall tc lc,
    Corr_Rsheet_of (NpF.mean (remove_outliers_amd data threshold)) tc lc
    = NaN.
Proof.
  intros H.
  assert (E : remove_outliers_amd data threshold = []).
  { unfold remove_outliers_amd. rewrite (median_nan data H).
    apply filter_none. intros x _. now rewrite fsub_nan. }
  rewrite E. repeat split.
Qed.

Lemma remove_outliers_amd_nan_witness :
  remove_outliers_amd [Fin 1; NaN; Fin 2] default_threshold = [] /\
  NpF.mean (remove_outliers_amd [Fin 1; NaN; Fin 2] default_threshold)
  = NaN /\
  forall tc lc,
    Corr_Rsheet_of
      (NpF.mean (remove_outliers_amd [Fin 1; NaN; Fin 2] default_threshold))
      tc lc
    = NaN.
Proof.
  apply (remove_outliers_amd_nan [Fin 1; NaN; Fin 2] default_threshold).
  cbn [In]. auto.
Defined.

End FilterMore.

(* ================================================================== *)
(** * More about the correction factors *)

Module CorrectionMore.
Import Float FloatFacts App CorrectionFacts.
Local Open Scope R_scope.




Lemma fmul_nan_r x : fmul x NaN = NaN.
Proof. destruct x; reflexivity. Qed.

(** X10.  The thickness input accepts [0]: for a thickness of zero (and a
    spacing that is not) [thickness_correction] raises nothing and returns
    NaN, so does [thicknessComp], and the corrected sheet resistance
    computed with it is NaN whatever the ratio and the lateral factor; a
    spacing of zero raises [ZeroDivisionError]. *)
Theorem thickness_zero :
  (forall s, s <> 0 -> thickness_correction 0 s = Ok NaN) /\
  (forall t, thickness_correction t 0 = Raise ZeroDivisionError) /\
  (forall tp, est_thickness tp = Some 0 -> probe_spacing tp <> 0 ->
     thicknessComp tp = Ok NaN) /\
  (forall ratio lc, Corr_Rsheet_of ratio NaN lc = NaN).
Proof.
  assert (H0 : forall t s, t = 0 -> s <> 0 ->
                 thickness_correction t s = Ok NaN).
  { intros t s -> Hs. unfold thickness_correction.
    rewrite !pydiv_ok by lra. cbn [bind NpF.sinh].
    replace (0 / s) with 0 by (unfold Rdiv; now rewrite Rmult_0_l).
    replace (0 / (2 * s)) with 0 by (unfold Rdiv; now rewrite Rmult_0_l).
    rewrite sinh_0, log_2. unfold fdiv at 2, inf_of_sign.
    rewrite Reqb_true by reflexivity. rewrite !Rltb_false by lra.
    reflexivity. }
  repeat split.
  - intros s Hs. now apply H0.
  - intros t. unfold thickness_correction. now rewrite pydiv_zero.
  - intros tp He Hs. unfold thicknessComp. rewrite He.
    apply H0; [lra|exact Hs].
  - intros ratio lc. unfold Corr_Rsheet_of. now rewrite fmul_nan_r.
Qed.




Lemma compute_am_ok m a d s :
  d <> 0 -> (1 <= m)%Z -> exists f, compute_am m a d s = Ok f.
Proof.
  intros Hd Hm. unfold compute_am. rewrite !pydiv_ok; try assumption.
  - cbn [bind]. eauto.
  - apply not_0_IZR. lia.
Qed.

Lemma compute_am_zero m a s :
  compute_am m a 0 s = Raise ZeroDivisionError.
Proof. unfold compute_am. now rewrite pydiv_zero. Qed.

Lemma mapM_ok {A B} (f : A -> res B) l :
  (forall x, In x l -> exists y, f x = Ok y) ->
  exists ys, mapM f l = Ok ys.
Proof.
  induction l as [|x t IH]; intros H; [now exists []|].
  destruct (H x (or_introl eq_refl)) as [y Hy].
  destruct IH as [ys Hys]; [intros z Hz; apply H; now right|].
  exists (y :: ys). cbn [mapM]. now rewrite Hy, Hys.
Qed.

Lemma range_from_1_ge num_terms m :
  In m (range_from_1 num_terms) -> (1 <= m)%Z.
Proof.
  unfold range_from_1. intros H. apply in_map_iff in H.
  destruct H as [k [<- _]]. lia.
Qed.

(** X12.  [square_lateral_correction] raises [ZeroDivisionError] when the
    spacing or the side [d] is zero, whatever the number of terms, and
    raises nothing otherwise. *)
Theorem square_lateral_correction_raises (d a s : R) (num_terms : Z) :
  (s = 0 \/ d = 0 ->
     square_lateral_correction d a s num_terms = Raise ZeroDivisionError) /\
  (s <> 0 -> d <> 0 ->
     exists f, square_lateral_correction d a s num_terms = Ok f).
Proof.
  unfold square_lateral_correction. split.
  - intros [->| ->].
    + now rewrite pydiv_zero.
    + destruct (Req_dec_T s 0) as [->|Hs]; [now rewrite pydiv_zero|].
      rewrite !pydiv_ok by assumption. cbn [bind].
      replace (0 / s) with 0 by (unfold Rdiv; now rewrite Rmult_0_l).
      destruct (range_from_1 num_terms) as [|m t].
      * cbn [mapM bind]. now rewrite pydiv_zero.
      * cbn [mapM]. now rewrite compute_am_zero.
  - intros Hs Hd. rewrite !pydiv_ok by assumption. cbn [bind].
    assert (Hds : d / s <> 0).
    { unfold Rdiv. intros H. apply Rmult_integral in H.
      destruct H as [H|H]; [contradiction|].
      now apply Rinv_neq_0_compat in H. }
    destruct (mapM_ok (fun m => compute_am m (a / s) (d / s) s)
                (range_from_1 num_terms)) as [ys Hys].
    { intros m Hm. apply compute_am_ok; [exact Hds|].
      now apply range_from_1_ge in Hm. }
    rewrite Hys. cbn [bind]. rewrite !pydiv_ok by assumption.
    cbn [bind]. eauto.
Qed.

End CorrectionMore.

(* ================================================================== *)
(** * More about the reversal averaging and the validity flag *)

Module PipelineMore.
Import Float FloatFacts App PipelineFacts Runs.
Local Open Scope R_scope.


Lemma slice_empty {A} (l : list A) a : NpF.slice l a a = [].
Proof. unfold NpF.slice. now rewrite Z.sub_diag. Qed.





Lemma int_duty_0 p : Py.int (inject_Z p * 0) = 0%Z.
Proof.
  unfold Py.int, Qmult, inject_Z. cbn [Qnum Qden].
  now rewrite Z.mul_0_r.
Qed.

Lemma int_duty_1 p : Py.int (inject_Z p * 1) = p.
Proof.
  unfold Py.int, Qmult, inject_Z. cbn [Qnum Qden].
  rewrite Z.mul_1_r. apply Z.quot_1_r.
Qed.

(** X14.  At either end of the duty-cycle slider one of the two averaging
    windows is empty: with [duty_cycle = 0] or [duty_cycle = 1] the
    corrected voltage and the ratio of every series are NaN. *)
Theorem no_reversal_gives_nan (tp : test_param) (df : list row) :
  duty_cycle tp = 0%Q \/ duty_cycle tp = 1%Q ->
  Volt_corrected tp (map Voltage df) = NaN /\ Cal_V_I tp df = NaN.
Proof.
  intros Hd.
  assert (H : Volt_corrected tp (map Voltage df) = NaN).
  { unfold Volt_corrected. destruct Hd as [-> | ->].
    - rewrite int_duty_0, Z.add_0_r, slice_empty. reflexivity.
    - rewrite int_duty_1, slice_empty. cbn [NpF.series_mean].
      rewrite FilterMore.fsub_nan. reflexivity. }
  split; [exact H|]. unfold Cal_V_I. now rewrite H.
Qed.

Lemma no_reversal_gives_nan_witness :
  Volt_corrected
    (mk_param (-6) 100 1 0 1 (16 / 10) None (Circular 100))
    (map Voltage df_50uA) = NaN /\
  Cal_V_I (mk_param (-6) 100 1 0 1 (16 / 10) None (Circular 100)) df_50uA
  = NaN.
Proof.
  apply (no_reversal_gives_nan
           (mk_param (-6) 100 1 0 1 (16 / 10) None (Circular 100)) df_50uA).
  right. reflexivity.
Defined.

Lemma sum_abs_nonneg l : 0 <= fold_right Rplus 0 (map Rabs l).
Proof.
  induction l as [|x t IH]; cbn [map fold_right]; [lra|].
  pose proof (Rabs_pos x). lra.
Qed.

Lemma sum_abs_zero l :
  fold_right Rplus 0 (map Rabs l) = 0 <-> forall x, In x l -> x = 0.
Proof.
  induction l as [|x t IH]; cbn [map fold_right In].
  - split; [intros _ y []|reflexivity].
  - pose proof (Rabs_pos x) as Hx. pose proof (sum_abs_nonneg t) as Ht.
    split.
    + intros H y [Exy|Hy].
      * subst y. destruct (Req_dec x 0) as [E|E]; [exact E|].
        apply Rabs_no_R0 in E. lra.
      * apply IH; [lra|exact Hy].
    + intros H. rewrite (H x (or_introl eq_refl)), Rabs_R0.
      rewrite (proj2 IH); [lra|]. intros y Hy. apply H. now right.
Qed.

(** X15.  The average current of a non-empty series is a finite number
    that is not negative, and it is zero exactly when every current sample
    is zero: only then is the ratio infinite or NaN for want of current. *)
Theorem Avg_curr_zero_iff (df : list row) :
  df <> [] ->
  exists a,
    Avg_curr (map Current df) = Fin a /\ 0 <= a /\
    (a = 0 <-> forall r, In r df -> Current r = 0).
Proof.
  intros Hne. unfold Avg_curr.
  destruct df as [|r0 t]; [contradiction|].
  set (l := map Current (r0 :: t)).
  assert (Hn : 0 < INR (length (map Rabs l)))
    by (apply lt_0_INR; unfold l; cbn; lia).
  pose proof (sum_abs_nonneg l) as Hs.
  exists (fold_right Rplus 0 (map Rabs l) / INR (length (map Rabs l))).
  split; [reflexivity|]. split.
  - apply Rmult_le_pos; [exact Hs|]. left. now apply Rinv_0_lt_compat.
  - assert (Hrows : (forall x, In x l -> x = 0) <->
                    (forall r, In r (r0 :: t) -> Current r = 0)).
    { unfold l. split.
      - intros H r Hr. apply H. now apply in_map.
      - intros H x Hx. apply in_map_iff in Hx.
        destruct Hx as [r [<- Hr]]. now apply H. }
    rewrite <- Hrows, <- (sum_abs_zero l). split.
    + intros H. unfold Rdiv in H. apply Rmult_integral in H.
      destruct H as [H|H]; [exact H|].
      assert (/ INR (length (map Rabs l)) <> 0)
        by (apply Rinv_neq_0_compat; lra).
      contradiction.
    + intros H. rewrite H. unfold Rdiv. apply Rmult_0_l.
Qed.

Lemma Avg_curr_zero_iff_witness :
  exists a,
    Avg_curr (map Current df_50uA) = Fin a /\ 0 <= a /\
    (a = 0 <-> forall r, In r df_50uA -> Current r = 0).
Proof. apply (Avg_curr_zero_iff df_50uA). discriminate. Defined.

End PipelineMore.

(* ================================================================== *)
(** * More about the validity check and the classification *)

Module ValidityMore.
Import Float FloatFacts App Runs.
Local Open Scope R_scope.


Lemma invalid_flag_cases out total :
  invalid_flag out total = Some true \/ invalid_flag out total = None.
Proof. unfold invalid_flag. destruct (fge _ _); auto. Qed.

Lemma invalid_flag_iff out total :
  (out <= total)%nat ->
  (invalid_flag out total = Some true <->
   (0 < total)%nat /\ (total <= 5 * out)%nat).
Proof.
  intros Hle. unfold invalid_flag, fge.
  destruct total as [|n].
  - assert (out = 0%nat) by lia. subst out.
    unfold fdiv, inf_of_sign. cbn [INR].
    rewrite Reqb_true by reflexivity. rewrite !Rltb_false by lra.
    cbn [fle]. split; [discriminate|lia].
  - assert (Hn : 0 < INR (S n)) by (apply lt_0_INR; lia).
    rewrite fdiv_fin by lra. cbn [fle].
    destruct (Rleb (2 / 10) (INR out / INR (S n))) eqn:E.
    + apply Rleb_iff in E. split; [intros _|reflexivity].
      split; [lia|]. apply INR_le. rewrite mult_INR.
      replace (INR 5) with 5 by (cbn; lra).
      assert (Hq : INR out = INR out / INR (S n) * INR (S n))
        by (field; lra).
      nra.
    + split; [discriminate|]. intros [_ H].
      assert (Hr : 2 / 10 <= INR out / INR (S n)).
      { apply le_INR in H. rewrite mult_INR in H.
        replace (INR 5) with 5 in H by (cbn; lra).
        apply Rmult_le_reg_r with (INR (S n)); [lra|].
        replace (INR out / INR (S n) * INR (S n)) with (INR out)
          by (field; lra).
        lra. }
      apply Rleb_iff in Hr. congruence.
Qed.

Lemma count_out_of_range_le df :
  (count_out_of_range df <= length df)%nat.
Proof. unfold count_out_of_range. apply filter_length_le. Qed.

(** X17.  A manual run is flagged invalid exactly when its frame is not
    empty and at least one sample in five is out of range; the flag is
    [True] or absent, never [False], and an empty frame is never
    flagged. *)
Theorem manual_test_invalid_iff tp curr_adv df previous o :
  manual_analysis tp curr_adv df previous = Ok o ->
  (test_invalid o = Some true \/ test_invalid o = None) /\
  (test_invalid o = Some true <->
   df <> [] /\ (length df <= 5 * count_out_of_range df)%nat).
Proof.
  intros H.
  assert (Hinv : test_invalid o
                 = invalid_flag (count_out_of_range df) (length df)).
  { unfold manual_analysis in H. destruct (negb curr_adv).
    - destruct (thicknessComp tp) as [tc|e]; [|discriminate].
      destruct (lateralComp tp) as [lc|e]; [|discriminate].
      cbn [bind] in H. inversion H; subst. reflexivity.
    - inversion H; subst. reflexivity. }
  rewrite Hinv. split; [apply invalid_flag_cases|].
  rewrite (invalid_flag_iff _ _ (count_out_of_range_le df)).
  destruct df as [|r t]; cbn [length]; split; intros [H1 H2];
    try lia; try contradiction; split; try discriminate; lia.
Qed.

Lemma manual_test_invalid_iff_witness :
  (test_invalid
     (mk_outcome [Cal_V_I tp_2 df_50uA] None None None None None
        (invalid_flag (count_out_of_range df_50uA) (length df_50uA)))
   = Some true \/
   test_invalid
     (mk_outcome [Cal_V_I tp_2 df_50uA] None None None None None
        (invalid_flag (count_out_of_range df_50uA) (length df_50uA)))
   = None) /\
  (test_invalid
     (mk_outcome [Cal_V_I tp_2 df_50uA] None None None None None
        (invalid_flag (count_out_of_range df_50uA) (length df_50uA)))
   = Some true <->
   df_50uA <> [] /\
   (length df_50uA <= 5 * count_out_of_range df_50uA)%nat).
Proof.
  apply (manual_test_invalid_iff tp_2 true df_50uA None). reflexivity.
Defined.

(** X18.  In auto mode with the surface unknown every corrected value
    gets a classification, except a NaN of a run that is not flagged
    invalid: that one gets none. *)
Theorem classification_none_iff (test_invalid : option bool) (x : float) :
  classification (Some true) Unknown test_invalid x = None <->
  x = NaN /\ test_invalid = None.
Proof.
  unfold classification, fge.
  destruct x as [r| | |]; cbn [flt fle andb orb].
  - destruct (Rlt_dec r 5) as [H|H].
    + rewrite Rltb_true by lra. split; [discriminate|intros [E _]; discriminate].
    + rewrite Rltb_false by lra. rewrite (Rleb_true 5 r) by lra.
      destruct (Rle_dec r (10 ^ 6)) as [H1|H1].
      * rewrite Rleb_true by lra. cbn [andb].
        split; [discriminate|intros [E _]; discriminate].
      * rewrite (Rleb_false r) by lra. rewrite (Rleb_true _ r) by lra.
        cbn [andb]. rewrite orb_true_r.
        split; [discriminate|intros [E _]; discriminate].
  - rewrite orb_true_r. split; [discriminate|intros [E _]; discriminate].
  - split; [discriminate|intros [E _]; discriminate].
  - destruct test_invalid; cbn [orb].
    + split; [discriminate|intros [_ E]; discriminate].
    + split; auto.
Qed.

End ValidityMore.

(* ================================================================== *)
(** * The wave and the reversal averaging together *)

Module IdealSample.
Import Float FloatFacts App WaveGenFacts PipelineFacts PipelineMore.
Local Open Scope R_scope.








End IdealSample.

(* ================================================================== *)
(** * More about the start of a test *)

Module FlowMore.
Import Flow FlowFacts.

(** X20.  The override question accepts exactly two answers: ["y"] and
    ["Y"]; every other text, the empty one and ["yes"] included, is a
    refusal. *)
Theorem affirmative_answers (answer : string) :
  lower answer = "y"%string <-> answer = "y"%string \/ answer = "Y"%string.
Proof.
  split.
  - destruct answer as [|c [|c' t]]; cbn [lower]; intros H;
      try discriminate.
    inversion H as [Hc]. clear H.
    destruct c as [[] [] [] [] [] [] [] []]; vm_compute in Hc;
      try discriminate; auto.
  - intros [-> | ->]; reflexivity.
Qed.

(** The pass of manual mode, case by case. *)
Lemma manual_pass_cases s w :
  curr_manual w = true ->
  let s1 := at_test_start s w in
  pass s w =
  if test_initiated s1 then
    match test_param s1 with
    | None => ([Uncaught KeyError], s1)
    | Some p =>
        match p_curr_value p with
        | Levels _ => ([Uncaught TypeError], s1)
        | Scalar v =>
            let wave := WaveGen.init_default_threshold (p_magnitude p) in
            if WaveGen._check_safety wave v then
              (CheckSafety v true :: generate_square_wave_call wave v
                 ++ [Measure_List],
               mk_session (Some p) false None true)
            else
              match safety_override w with
              | Some answer =>
                  if String.eqb (lower answer) "y" then
                    ([CheckSafety v false; Warning_danger]
                       ++ generate_square_wave_call wave v
                       ++ [Measure_List],
                     mk_session (Some p) false None true)
                  else
                    ([CheckSafety v false; Warning_danger;
                      Warning_stopped; Rerun],
                     mk_session (Some p) false (Some false) true)
              | None => ([CheckSafety v false; Warning_danger], s1)
              end
        end
    end
  else ([], s1).
Proof.
  intros Hm s1.
  destruct (FlowClaims.manual_at_test_start s w Hm) as [Hs He].
  fold s1 in Hs, He.
  rewrite pass_unfold. cbv zeta. fold s1. unfold safety_block.
  rewrite Hs.
  destruct (test_initiated s1) eqn:Ei.
  2:{ cbn [fst snd app]. unfold measurement_block. rewrite Ei. reflexivity. }
  destruct (test_param s1) as [p|] eqn:Ep; [|reflexivity].
  destruct (p_curr_value p) as [v|l]; [|reflexivity].
  destruct (WaveGen._check_safety _ v) eqn:Ec; cbn [negb].
  - cbn [fst snd]. unfold measurement_block.
    cbn [test_initiated safe manual_mode_enable test_param].
    rewrite ?Ei, ?He, ?Ep. cbn [fst snd]. rewrite app_comm_cons. reflexivity.
  - destruct (safety_override w) as [answer|].
    + destruct (String.eqb (lower answer) "y").
      * cbn [fst snd]. unfold measurement_block.
        cbn [test_initiated safe manual_mode_enable test_param].
        rewrite ?Ei, ?He, ?Ep. cbn [fst snd]. reflexivity.
      * cbn [fst snd]. rewrite ?He, ?Ep. reflexivity.
    + cbn [fst snd]. unfold measurement_block. rewrite ?Ei, ?Hs.
      cbn [fst snd]. now rewrite app_nil_r.
Qed.

(** The pass of auto mode, case by case. *)
Lemma auto_pass_cases s w :
  curr_manual w = false ->
  let s1 := at_test_start s w in
  pass s w =
  if test_initiated s1 then
    match test_param s1 with
    | None => ([Uncaught KeyError], s1)
    | Some p =>
        (Auto_Test_Initiation p,
         match p_curr_value p with
         | Levels (_ :: _) => mk_session (Some p) false (Some true) false
         | _ => s1
         end)
    end
  else ([], s1).
Proof.
  intros Hm s1.
  destruct (FlowClaims.auto_at_test_start s w Hm) as [Hs He].
  fold s1 in Hs, He.
  rewrite pass_unfold. cbv zeta. fold s1. unfold safety_block.
  rewrite Hs.
  replace (match test_initiated s1 with
           | true => ([], s1, true)
           | false => ([], s1, true)
           end)
    with (@nil event, s1, true)
    by (destruct (test_initiated s1); reflexivity).
  cbn [fst snd app]. unfold measurement_block. rewrite Hs, He.
  destruct (test_initiated s1); [|reflexivity].
  destruct (test_param s1) as [p|] eqn:Ep; [|reflexivity].
  destruct (p_curr_value p) as [v|[|v t]]; cbn [fst snd]; try reflexivity.
Qed.

Lemma no_abort_in_auto wave values :
  ~ In Warning_stopped
      (flat_map (fun value => generate_square_wave_call wave value
                                ++ [Measure_List]) values).
Proof.
  intros H. apply in_flat_map in H. destruct H as [v [_ H]].
  cbn in H. repeat (destruct H as [H|H]; [discriminate H|]). contradiction.
Qed.




(** X22.  Switching to auto mode while a manual test is pending (an
    unanswered override question, say) does not get round the question: the
    pass ends in [TypeError] with no wave and no measurement, and the test
    stays pending. *)
Theorem pending_manual_test_in_auto_mode s w p v :
  test_initiated s = true -> test_param s = Some p ->
  p_curr_value p = Scalar v ->
  curr_manual w = false -> start_test w = false ->
  fst (pass s w) = [Uncaught TypeError] /\
  test_initiated (snd (pass s w)) = true /\
  test_param (snd (pass s w)) = Some p.
Proof.
  intros Hi Hp Hv Hm Hst.
  rewrite (auto_pass_cases s w Hm). cbv zeta.
  unfold at_test_start, start_button, stamp_mode. rewrite Hm, Hst.
  cbn [test_initiated test_param]. rewrite Hi, Hp.
  unfold Auto_Test_Initiation. rewrite Hv.
  cbn [fst snd test_initiated test_param]. auto.
Qed.

Lemma pending_manual_test_in_auto_mode_witness :
  fst (pass (snd (pass fresh (Runs.press_start_2A None)))
         (mk_widgets false 2 0 App.Unknown false false None))
  = [Uncaught TypeError] /\
  test_initiated
    (snd (pass (snd (pass fresh (Runs.press_start_2A None)))
            (mk_widgets false 2 0 App.Unknown false false None))) = true /\
  test_param
    (snd (pass (snd (pass fresh (Runs.press_start_2A None)))
            (mk_widgets false 2 0 App.Unknown false false None)))
  = Some (mk_params (Scalar 2) 0).
Proof.
  apply (pending_manual_test_in_auto_mode
           (snd (pass fresh (Runs.press_start_2A None)))
           (mk_widgets false 2 0 App.Unknown false false None)
           (mk_params (Scalar 2) 0) 2); reflexivity.
Defined.

(** X23.  Whatever the session and the page: a pass that reports an abort
    has generated no wave and started no measurement and leaves no test
    pending; and a pass of manual mode that starts a measurement leaves the
    test over and the safe stamp cleared, so that an answer serves for one
    measurement only. *)
Theorem abort_and_measurement_outcomes s w :
  (abort_reported (fst (pass s w)) ->
     ~ generated (fst (pass s w)) /\ ~ measured (fst (pass s w)) /\
     test_initiated (snd (pass s w)) = false /\
     safe (snd (pass s w)) = Some false) /\
  (curr_manual w = true -> measured (fst (pass s w)) ->
     test_initiated (snd (pass s w)) = false /\
     safe (snd (pass s w)) = None).
Proof.
  unfold abort_reported, measured.
  destruct (curr_manual w) eqn:Hm.
  - rewrite (manual_pass_cases s w Hm). cbv zeta.
    destruct (test_initiated (at_test_start s w)) eqn:Ei.
    2:{ cbn [fst]. split; [intros []|intros _ []]. }
    destruct (test_param (at_test_start s w)) as [p|].
    2:{ cbn [fst]. split; [intros [H|[]]; discriminate H|].
        intros _ [H|[]]; discriminate H. }
    destruct (p_curr_value p) as [v|l].
    2:{ cbn [fst]. split; [intros [H|[]]; discriminate H|].
        intros _ [H|[]]; discriminate H. }
    destruct (WaveGen._check_safety _ v).
    { cbn [fst snd test_initiated safe]. split; [|auto].
      intros H. cbn in H.
      repeat (destruct H as [H|H]; [discriminate H|]). contradiction. }
    destruct (safety_override w) as [answer|].
    + destruct (String.eqb (lower answer) "y").
      * cbn [fst snd test_initiated safe]. split; [|auto].
        intros H. cbn in H.
        repeat (destruct H as [H|H]; [discriminate H|]). contradiction.
      * cbn [fst snd test_initiated safe]. split.
        { intros _.
          destruct (FlowClaims.not_generated_nor_measured
                      [CheckSafety v false; Warning_danger;
                       Warning_stopped; Rerun]) as [H1 H2].
          { intros e He. cbn in He.
            repeat (destruct He as [<-|He]; [exact I|]). contradiction. }
          auto. }
        intros _ H. cbn in H.
        repeat (destruct H as [H|H]; [discriminate H|]). contradiction.
    + cbn [fst]. split.
      * intros H. cbn in H.
        repeat (destruct H as [H|H]; [discriminate H|]). contradiction.
      * intros _ H. cbn in H.
        repeat (destruct H as [H|H]; [discriminate H|]). contradiction.
  - split; [|discriminate].
    rewrite (auto_pass_cases s w Hm). cbv zeta.
    destruct (test_initiated (at_test_start s w)); [|intros []].
    destruct (test_param (at_test_start s w)) as [p|].
    2:{ cbn [fst]. intros [H|[]]; discriminate H. }
    cbn [fst]. unfold Auto_Test_Initiation.
    destruct (p_curr_value p) as [v|l].
    + intros [H|[]]; discriminate H.
    + intros H. now apply no_abort_in_auto in H.
Qed.

End FlowMore.

(* ================================================================== *)
(** * The data path from the instrument to the frame *)

Module DeviceMore.
Import Device.
Local Open Scope R_scope.

Lemma drain_errors_code state error_query fuel : forall st outVal st',
  drain_errors state error_query fuel st = Some (outVal, st') ->
  fst outVal = 0%Z.
Proof.
  induction fuel as [|fuel IH]; intros st outVal st' H;
    cbn [drain_errors] in H; [discriminate|].
  destruct (error_query st) as [o s1].
  destruct (fst o =? 0)%Z eqn:E.
  - inversion H; subst. now apply Z.eqb_eq.
  - eapply IH. exact H.
Qed.

(** X24.  The error-draining loop leaves only on an error code of [0]: the
    [fetched_error] that [Measure_List] returns beside its data always has
    code [0], whatever the instrument reported before. *)
Theorem fetched_error_code_is_zero (state : Type)
    (error_query : state -> (Z * string) * state) fuel st dResult
    reshaped_result fetched_error st' :
  Measure_List_return error_query fuel st dResult
    = Some (Measured reshaped_result fetched_error, st') ->
  fst fetched_error = 0%Z.
Proof.
  unfold Measure_List_return.
  destruct (drain_errors state error_query fuel st) as [[o s1]|] eqn:E;
    [|discriminate].
  destruct (reshape_6 dResult); intros H; inversion H; subst.
  eapply drain_errors_code. exact E.
Qed.

Lemma fetched_error_code_is_zero_witness :
  fst (0%Z, "No error"%string) = 0%Z.
Proof.
  apply (fetched_error_code_is_zero _ Runs.pop_error 3
           [(-113, "Undefined header"); (-222, "Data out of range")]%Z%string
           [1; 2; 3; 4; 5; 6]
           [[1; 2; 3; 4; 5; 6]] (0%Z, "No error"%string) []).
  reflexivity.
Defined.

Lemma rows_of_full {A} n : forall l : list A,
  length l = (n * 6)%nat ->
  length (rows_of n l) = n /\
  concat (rows_of n l) = l /\
  Forall (fun r => length r = 6%nat) (rows_of n l).
Proof.
  induction n as [|n IH]; intros l Hl.
  - destruct l; [|discriminate]. repeat split. constructor.
  - cbn [rows_of].
    destruct (IH (skipn 6 l)) as [H1 [H2 H3]].
    { rewrite length_skipn. lia. }
    repeat split.
    + cbn [length]. now rewrite H1.
    + cbn [concat]. rewrite H2. apply firstn_skipn.
    + constructor; [|exact H3]. rewrite length_firstn. lia.
Qed.

Lemma DataFrame_rows n : forall l : list R,
  length l = (n * 6)%nat ->
  exists df,
    DataFrame (rows_of n l) = Ok df /\ length df = n /\
    forall k, (k < n)%nat ->
      App.Voltage (nth k df (App.mk_row 0 0 0 0 0 0)) = nth (6 * k) l 0 /\
      App.Current (nth k df (App.mk_row 0 0 0 0 0 0))
        = nth (6 * k + 1) l 0 /\
      App.Source (nth k df (App.mk_row 0 0 0 0 0 0))
        = nth (6 * k + 5) l 0.
Proof.
  induction n as [|n IH]; intros l Hl.
  - exists []. repeat split; intros; lia.
  - destruct l as [|v [|c [|r [|t [|s [|o rest]]]]]]; try discriminate.
    destruct (IH rest) as [df [Hdf [Hlen Hk]]].
    { cbn [length] in Hl. lia. }
    exists (App.mk_row v c r t s o :: df).
    unfold DataFrame in *. cbn [rows_of firstn skipn mapM row_of_values bind].
    rewrite Hdf. cbn [bind]. split; [reflexivity|].
    split; [cbn [length]; now rewrite Hlen|].
    intros [|k] Hlt.
    + repeat split.
    + destruct (Hk k ltac:(lia)) as [Hv [Hc Hs]].
      replace (6 * S k)%nat with (6 + 6 * k)%nat by lia.
      cbn [nth plus]. rewrite Hv, Hc, Hs.
      replace (6 * k + 1)%nat with (S (6 * k)) by lia.
      replace (6 * k + 5)%nat with (S (S (S (S (S (6 * k)))))) by lia.
      repeat split.
Qed.

(** X25.  The reshape of [Measure_List] succeeds exactly when the number
    of fetched values is a multiple of six.  Then the rows put end to end
    are the fetched values, unchanged and in order, every row has six
    values, and the frame built from them has one line per row whose
    voltage, current and source are the values [6k], [6k+1] and [6k+5];
    otherwise the call returns the text of a [ValueError] and no frame is
    kept. *)
Theorem reshape_keeps_the_data (dResult : list R) :
  (((length dResult) mod 6 = 0)%nat ->
     exists rows df,
       reshape_6 dResult = Ok rows /\
       concat rows = dResult /\
       Forall (fun r => length r = 6%nat) rows /\
       DataFrame rows = Ok df /\
       length df = (length dResult / 6)%nat /\
       forall k, (k < length df)%nat ->
         App.Voltage (nth k df (App.mk_row 0 0 0 0 0 0))
           = nth (6 * k) dResult 0 /\
         App.Current (nth k df (App.mk_row 0 0 0 0 0 0))
           = nth (6 * k + 1) dResult 0 /\
         App.Source (nth k df (App.mk_row 0 0 0 0 0 0))
           = nth (6 * k + 5) dResult 0) /\
  (((length dResult) mod 6 <> 0)%nat ->
     reshape_6 dResult = Raise ValueError /\
     forall state (error_query : state -> (Z * string) * state) fuel st
            result st',
       Measure_List_return error_query fuel st dResult
         = Some (result, st') ->
       result = Str_e ValueError /\ Measured_df result = Ok None).
Proof.
  split.
  - intros Hmod.
    assert (Hlen : length dResult = (length dResult / 6 * 6)%nat).
    { pose proof (Nat.div_mod_eq (length dResult) 6). lia. }
    destruct (rows_of_full (length dResult / 6) dResult Hlen)
      as [H1 [H2 H3]].
    destruct (DataFrame_rows (length dResult / 6) dResult Hlen)
      as [df [Hdf [Hl Hk]]].
    exists (rows_of (length dResult / 6) dResult), df.
    unfold reshape_6.
    rewrite (proj2 (Nat.eqb_eq _ _)) by lia.
    repeat split; try assumption.
    + rewrite Hl in H. now apply Hk.
    + rewrite Hl in H. now apply Hk.
    + rewrite Hl in H. now apply Hk.
  - intros Hmod.
    assert (Hr : reshape_6 dResult = Raise ValueError).
    { unfold reshape_6.
      destruct (length dResult / 6 * 6 =? length dResult)%nat eqn:E;
        [|reflexivity].
      apply Nat.eqb_eq in E.
      pose proof (Nat.div_mod_eq (length dResult) 6). lia. }
    split; [exact Hr|].
    intros state error_query fuel st result st' H.
    unfold Measure_List_return in H. rewrite Hr in H.
    destruct (drain_errors state error_query fuel st) as [[o s1]|];
      [|discriminate].
    inversion H; subst. split; reflexivity.
Qed.

End DeviceMore.
